(** * check_similar_pr.py: duplicate pull-request detection

    A shallow embedding of [.github/scripts/check_similar_pr.py] and the
    properties of its scoring, selection, listing and notification code.

    Conventions of the embedding:
    - Python [set] of strings is stdpp's [gset string]; [len] is [size].
    - Python [float] is IEEE binary64.  A finite binary64 value is
      represented by the rational it denotes ([Q]); every arithmetic
      operation is the exact rational operation followed by [rnd],
      round-to-nearest, ties-to-even, at 53 bits of precision with the
      binary64 subnormal range.  The scores of this program stay in [0,1]
      (proved below), so the overflow threshold is never reached and no
      infinity or NaN arises.
    - Raising code returns in [result]; the HTTP collaborators are read
      from an explicit [World]; [print] and [requests.post] are recorded in
      a trace of events. *)

From Stdlib Require Import ZArith QArith Qround Qpower Qabs Lia Lqa Bool.
From Stdlib Require Import Strings.String Strings.Ascii.
From stdpp Require Import base gmap strings list sets sorting pretty.

Set Default Proof Using "Type".
Local Open Scope Z_scope.

(** ** Binary64 arithmetic *)

Module Float.

Definition prec : Z := 53.
Definition emin : Z := -1074.

(** [pow2 e] is the rational 2^e, for negative exponents too. *)
Definition pow2 (e : Z) : Q := (2 ^ e)%Q.

(** [ilog2 x], for [x > 0], is the integer [k] with 2^k <= x < 2^(k+1). *)
Definition ilog2 (x : Q) : Z :=
  let k := Z.log2 (Qnum x) - Z.log2 (Zpos (Qden x)) in
  if Qle_bool (pow2 k) x then k else k - 1.

(** Nearest integer, ties to the even one. *)
Definition round_half_even (x : Q) : Z :=
  let f := Qfloor x in
  match Qcompare (x - inject_Z f) (1 # 2) with
  | Lt => f
  | Gt => f + 1
  | Eq => if Z.even f then f else f + 1
  end.

(** The exponent of the last place of the binade of [x]; [emin] in the
    subnormal range. *)
Definition ulp_exp (x : Q) : Z := Z.max emin (ilog2 x - (prec - 1)).

(** Rounding of a positive rational to binary64. *)
Definition rnd_pos (x : Q) : Q :=
  match Qnum x with
  | Zpos _ =>
      let e := ulp_exp x in
      (inject_Z (round_half_even (x / pow2 e)) * pow2 e)%Q
  | _ => 0%Q
  end.

(** Rounding to binary64, below the overflow threshold.  The result is in
    lowest terms, so that equal floats are equal terms. *)
Definition rnd (x : Q) : Q :=
  let y := Qred x in
  match Qnum y with
  | Zneg _ => Qred (- rnd_pos (- y))
  | _ => Qred (rnd_pos y)
  end.

Definition float : Type := Q.

(** A decimal literal [n/d], such as [0.6] = [of_decimal 6 10]. *)
Definition of_decimal (n : Z) (d : positive) : float := rnd (n # d).

Definition zero : float := 0%Q.
Definition one : float := 1%Q.

Definition mul (x y : float) : float := rnd (x * y).
Definition add (x y : float) : float := rnd (x + y).

(** [x >= y] and [x < y]. *)
Definition geb (x y : float) : bool := Qle_bool y x.
Definition ltb (x y : float) : bool := negb (Qle_bool y x).

(** [format(x, ".2f")] for [x >= 0]: the decimal with two fractional digits
    nearest to the exact value of [x], ties to even. *)
Definition format_2f (x : float) : string :=
  let n := round_half_even (x * 100) in
  pretty (n / 100) +:+ "." +:+ pretty (n / 10 mod 10) +:+ pretty (n mod 10).

End Float.

Abbreviation float := Float.float.

(** ** Exceptions and effects *)

Inductive exn : Type :=
  | HTTPError
  | ConnectionError
  | ZeroDivisionError.

(** The outcome of code that may raise. *)
Inductive result (A : Type) : Type :=
  | Ok (a : A)
  | Raise (e : exn).
Arguments Ok {A} a.
Arguments Raise {A} e.

#[global] Instance result_ret : MRet result := fun A a => Ok a.
#[global] Instance result_bind : MBind result := fun A B f m =>
  match m with
  | Ok a => f a
  | Raise e => Raise e
  end.

(** What a run does to the outside: lines printed and requests posted. *)
Inductive event : Type :=
  | Print (line : string)
  | Post (url : string) (text : string).

(** An effectful computation: the events so far and the outcome. *)
Record run (A : Type) : Type := Run { trace : list event; outcome : result A }.
Arguments Run {A} trace outcome.
Arguments trace {A} r.
Arguments outcome {A} r.

#[global] Instance run_ret : MRet run := fun A a => Run [] (Ok a).
#[global] Instance run_bind : MBind run := fun A B f m =>
  match outcome m with
  | Ok a => let r := f a in Run (trace m ++ trace r) (outcome r)
  | Raise e => Run (trace m) (Raise e)
  end.

Definition lift {A} (r : result A) : run A := Run [] r.
Definition print (line : string) : run unit := Run [Print line] (Ok tt).

(** ** JSON objects of the hosting API and the world of a run *)

(** A pull request as the API returns it. *)
Record pr_json : Type := PrJson {
  pj_number : Z;
  pj_title : string;
  pj_body : option string;
  pj_html_url : string;
  pj_user_login : string;
  pj_state : string;
  pj_updated_at : string
}.

(** An entry of a pull request's file listing. *)
Record file_json : Type := FileJson { filename : string }.

(** The response of [requests.post]. *)
Record response : Type := Response { status_code : Z; text : string }.

(** Everything the script reads from outside.  A paginated listing is the
    list of what [gh_get] does for page 1, 2, ...: the page, or the
    exception of [raise_for_status]; past its end the API answers with the
    empty page. *)
Record World : Type := {
  pr_number : Z;
  slack_webhook : option string;
  api_pull : Z -> result pr_json;
  api_pull_files : Z -> list (result (list file_json));
  api_pulls : list (result (list pr_json));
  (** [(datetime.utcnow() - timedelta(days=days)).isoformat()] *)
  utcnow_minus_days : Z -> string;
  (** [requests.post(url, json={"text": message})] *)
  requests_post : string -> string -> result response
}.

(** The record built by [main] for the current pull request and for each
    candidate. *)
Record pr_record : Type := PrRecord {
  number : Z;
  title : string;
  body : string;
  files : list string;
  url : string;
  author : string
}.

(** A scored candidate, the tuple [(score, file_overlap, text_sim, cand)]. *)
Definition scored : Type := (float * float * float * pr_record)%type.
Definition score_of (x : scored) : float := x.1.1.1.
Definition overlap_of (x : scored) : float := x.1.1.2.
Definition text_sim_of (x : scored) : float := x.1.2.
Definition cand_of (x : scored) : pr_record := x.2.

(** ** The functions of the script *)

(** [get_pr] *)
Definition get_pr (w : World) (pr_num : Z) : result pr_json := api_pull w pr_num.

(** The loop of [get_pr_files] over the pages still to fetch. *)
Fixpoint get_pr_files_loop (pages : list (result (list file_json)))
    (files : list string) : result (list string) :=
  match pages with
  | [] => Ok files
  | Raise e :: _ => Raise e
  | Ok [] :: _ => Ok files
  | Ok chunk :: rest => get_pr_files_loop rest (files ++ map filename chunk)
  end.

Definition get_pr_files (w : World) (pr_num : Z) : result (list string) :=
  get_pr_files_loop (api_pull_files w pr_num) [].

(** [str.lower].  Text is a string of 8-bit characters; the letters [A-Z]
    are the only ones whose lower case lies in the token class, and the
    other characters are left as they are. *)
Definition lower_char (c : ascii) : ascii :=
  let n := N_of_ascii c in
  if ((65 <=? n) && (n <=? 90))%N then ascii_of_N (n + 32) else c.

Fixpoint lower (s : string) : string :=
  match s with
  | EmptyString => EmptyString
  | String c s' => String (lower_char c) (lower s')
  end.

(** The character class [[a-z0-9_]]. *)
Definition is_token_char (c : ascii) : bool :=
  let n := N_of_ascii c in
  (((97 <=? n) && (n <=? 122)) || ((48 <=? n) && (n <=? 57)) || (n =? 95))%N.

Definition flush (acc : string) : list string :=
  match acc with
  | EmptyString => []
  | _ => [acc]
  end.

(** [re.findall(r"[a-z0-9_]+", s)]: the maximal runs of token characters,
    left to right; [acc] is the run being read. *)
Fixpoint findall_tokens (acc : string) (s : string) : list string :=
  match s with
  | EmptyString => flush acc
  | String c s' =>
      if is_token_char c then findall_tokens (acc +:+ String c EmptyString) s'
      else flush acc ++ findall_tokens EmptyString s'
  end.

Definition tokenize (text : option string) : gset string :=
  let text := lower (default EmptyString text) in
  let tokens := findall_tokens EmptyString text in
  list_to_set tokens.

(** [len] of a set. *)
Definition len (s : gset string) : Z := Z.of_nat (size s).

(** Truth value of a set: empty sets are false. *)
Definition nonempty (s : gset string) : bool := negb (bool_decide (s = ∅)).

(** [a / b] on integers: the quotient rounded to a float, or
    [ZeroDivisionError]. *)
Definition true_div (a b : Z) : result float :=
  if (b =? 0)%Z then Raise ZeroDivisionError
  else Ok (Float.rnd (inject_Z a / inject_Z b)).

Definition jaccard (s1 s2 : gset string) : result float :=
  if negb (nonempty s1) && negb (nonempty s2) then Ok Float.zero
  else
    let inter := len (s1 ∩ s2) in
    let union := len (s1 ∪ s2) in
    if negb (union =? 0)%Z then true_div inter union else Ok Float.zero.

Definition compute_similarity (current candidate : pr_record)
    : result (float * float * float) :=
  let cur_files : gset string := list_to_set (files current) in
  let cand_files : gset string := list_to_set (files candidate) in
  file_overlap ←
    (if negb (nonempty cur_files) then Ok Float.zero
     else true_div (len (cur_files ∩ cand_files)) (len cur_files));
  let cur_text := title current +:+ " " +:+ body current in
  let cand_text := title candidate +:+ " " +:+ body candidate in
  let cur_tokens := tokenize (Some cur_text) in
  let cand_tokens := tokenize (Some cand_text) in
  text_sim ← jaccard cur_tokens cand_tokens;
  let score :=
    Float.add (Float.mul (Float.of_decimal 6 10) file_overlap)
              (Float.mul (Float.of_decimal 4 10) text_sim) in
  Ok (score, file_overlap, text_sim).

(** The [for] loop of [get_recent_prs] over one page: [inl prs] is the
    early [return prs], [inr prs] the end of the page. *)
Fixpoint scan_page (since : string) (res : list pr_json) (prs : list pr_json)
    : list pr_json + list pr_json :=
  match res with
  | [] => inr prs
  | pr :: res' =>
      if String.ltb (pj_updated_at pr) since then inl prs
      else scan_page since res' (prs ++ [pr])
  end.

(** The [while] loop of [get_recent_prs] over the pages still to fetch. *)
Fixpoint get_recent_prs_loop (since : string)
    (pages : list (result (list pr_json))) (prs : list pr_json)
    : result (list pr_json) :=
  match pages with
  | [] => Ok prs
  | Raise e :: _ => Raise e
  | Ok [] :: _ => Ok prs
  | Ok res :: rest =>
      match scan_page since res prs with
      | inl prs' => Ok prs'
      | inr prs' => get_recent_prs_loop since rest prs'
      end
  end.

Definition get_recent_prs (w : World) (days : Z) : result (list pr_json) :=
  let since := utcnow_minus_days w days +:+ "Z" in
  get_recent_prs_loop since (api_pulls w) [].

(** Truth value of the configured webhook: unset and empty are false. *)
Definition webhook_set (hook : option string) : option string :=
  match hook with
  | Some (String c u) => Some (String c u)
  | _ => None
  end.

Definition notify_slack (w : World) (message : string) : run unit :=
  match webhook_set (slack_webhook w) with
  | None => print "SLACK_WEBHOOK_URL not set, skipping Slack notification"
  | Some hook =>
      resp ← Run [Post hook message] (requests_post w hook message);
      print ("Slack response: " +:+ pretty (status_code resp) +:+ " "
             +:+ String.substring 0 200 (text resp))
  end.

(** The dictionary [main] builds from an API object and a file list. *)
Definition make_record (pr : pr_json) (files : list string) : pr_record :=
  {| number := pj_number pr;
     title := pj_title pr;
     body := default EmptyString (pj_body pr);
     files := files;
     url := pj_html_url pr;
     author := pj_user_login pr |}.

(** The threshold gate of [main]. *)
Definition passes_gate (score file_overlap : float) : bool :=
  Float.geb score (Float.of_decimal 5 10)
  && Float.geb file_overlap (Float.of_decimal 4 10).

(** The candidate loop of [main]. *)
Fixpoint collect_candidates (w : World) (current : pr_record)
    (recent_prs : list pr_json) (candidates : list scored)
    : result (list scored) :=
  match recent_prs with
  | [] => Ok candidates
  | pr :: rest =>
      if (pj_number pr =? number current)%Z then
        collect_candidates w current rest candidates
      else if negb (String.eqb (pj_state pr) "open"
                    || String.eqb (pj_state pr) "closed") then
        collect_candidates w current rest candidates
      else
        files ← get_pr_files w (pj_number pr);
        let cand := make_record pr files in
        '(score, file_overlap, text_sim) ← compute_similarity current cand;
        if passes_gate score file_overlap then
          collect_candidates w current rest
            (candidates ++ [(score, file_overlap, text_sim, cand)])
        else collect_candidates w current rest candidates
  end.

(** [list.sort(key=lambda x: x[0], reverse=True)] is a stable sort: entries
    with equal keys keep their order.  A stable descending sort has one
    possible result ([sort_desc_unique] below), computed here by insertion:
    [insert_desc] puts [x], which came before every entry of [l], in front
    of the first entry whose score is not greater. *)
Fixpoint insert_desc (x : scored) (l : list scored) : list scored :=
  match l with
  | [] => [x]
  | y :: l' =>
      if Float.ltb (score_of x) (score_of y) then y :: insert_desc x l'
      else x :: y :: l'
  end.

Definition sort_desc (l : list scored) : list scored := foldr insert_desc [] l.

(** Sorting and truncation of the gated candidates. *)
Definition select_top (candidates : list scored) : list scored :=
  take 3 (sort_desc candidates).

(** The gate on a scored candidate. *)
Definition gated (x : scored) : bool := passes_gate (score_of x) (overlap_of x).

(** The selection step on already scored candidates: gate, sort, truncate. *)
Definition select (results : list scored) : list scored :=
  select_top (filter gated results).

Definition newline : string := String (ascii_of_N 10) EmptyString.

Fixpoint join (sep : string) (lines : list string) : string :=
  match lines with
  | [] => EmptyString
  | [l] => l
  | l :: ls => l +:+ sep +:+ join sep ls
  end.

Definition candidate_line (x : scored) : string :=
  let '(score, file_overlap, text_sim, cand) := x in
  "- <" +:+ url cand +:+ "|#" +:+ pretty (number cand) +:+ " - "
  +:+ title cand +:+ "> " +:+ "(author: " +:+ author cand
  +:+ ", score=" +:+ Float.format_2f score
  +:+ ", files=" +:+ Float.format_2f file_overlap
  +:+ ", text=" +:+ Float.format_2f text_sim +:+ ")".

Definition message_lines (current : pr_record) (top : list scored) : list string :=
  [ ":mag: *Possible duplicate / overlapping PR detected*";
    "*Current PR:* <" +:+ url current +:+ "|#" +:+ pretty (number current)
    +:+ " - " +:+ title current +:+ "> (author: " +:+ author current +:+ ")";
    EmptyString;
    "*Similar PRs within last 7 days:*" ]
  ++ map candidate_line top.

Definition main (w : World) : run unit :=
  current_pr ← lift (get_pr w (pr_number w));
  current_files ← lift (get_pr_files w (pr_number w));
  let current := make_record current_pr current_files in
  recent_prs ← lift (get_recent_prs w 7);
  candidates ← lift (collect_candidates w current recent_prs []);
  match candidates with
  | [] => print "No similar PRs found."
  | _ =>
      let top := select_top candidates in
      notify_slack w (join newline (message_lines current top))
  end.

(** ** Auxiliary definitions of the statements *)

(** The weights [0.6] and [0.4] of the score. *)
Definition weight_files : float := Float.of_decimal 6 10.
Definition weight_text : float := Float.of_decimal 4 10.

(** The conditional of [compute_similarity] that computes [file_overlap]. *)
Definition file_overlap_of (cur_files cand_files : gset string) : result float :=
  if negb (nonempty cur_files) then Ok Float.zero
  else true_div (len (cur_files ∩ cand_files)) (len cur_files).

(** The file names of the pages [get_pr_files] reads: those before the
    first empty page. *)
Fixpoint fetched_files (pages : list (list file_json)) : list string :=
  match pages with
  | [] => []
  | [] :: _ => []
  | chunk :: rest => map filename chunk ++ fetched_files rest
  end.

(** The entries whose score equals [s], and the descending order. *)
Definition same_score (s : float) (x : scored) : bool := Qeq_bool (score_of x) s.
Definition score_ge (x y : scored) : Prop := (score_of y <= score_of x)%Q.

(** The test of [get_recent_prs] on one entry: its [updated_at] is not
    before [since]. *)
Definition in_window (since : string) (pr : pr_json) : bool :=
  negb (String.ltb (pj_updated_at pr) since).

(** The entries of the pages [get_recent_prs] can read: those before the
    first empty page. *)
Fixpoint fetched_prs (pages : list (list pr_json)) : list pr_json :=
  match pages with
  | [] => []
  | [] :: _ => []
  | res :: rest => res ++ fetched_prs rest
  end.

(** The longest prefix of entries that pass [p]. *)
Fixpoint take_while {A : Type} (p : A -> bool) (l : list A) : list A :=
  match l with
  | [] => []
  | x :: l' => if p x then x :: take_while p l' else []
  end.

(** A listing ordered by descending [updated_at], as requested from the
    API with [sort="updated", direction="desc"]. *)
Definition newest_first (l : list pr_json) : Prop :=
  StronglySorted (fun a b => String.le (pj_updated_at b) (pj_updated_at a)) l.

(** What the loop guarantees of every collected tuple. *)
Definition eligible (current : pr_record) (recent_prs : list pr_json)
    (x : scored) : Prop :=
  number (cand_of x) ≠ number current
  /\ exists pr, In pr recent_prs /\ pj_number pr = number (cand_of x).

(** Every character of [s] passes [p]. *)
Fixpoint all_chars (p : ascii -> bool) (s : string) : bool :=
  match s with
  | EmptyString => true
  | String c s' => p c && all_chars p s'
  end.

(** A character that cannot occur in a token, in either case. *)
Definition is_separator (c : ascii) : bool := negb (is_token_char (lower_char c)).

(** Where a collected tuple comes from: a listed pull request that is open
    or closed, its complete file list, and the scores of the comparison. *)
Definition scored_from (w : World) (current : pr_record)
    (recent_prs : list pr_json) (x : scored) : Prop :=
  exists pr files,
    In pr recent_prs
    /\ (pj_state pr = "open"%string \/ pj_state pr = "closed"%string)
    /\ get_pr_files w (pj_number pr) = Ok files
    /\ cand_of x = make_record pr files
    /\ compute_similarity current (cand_of x)
       = Ok (score_of x, overlap_of x, text_sim_of x)
    /\ gated x = true.

(** The character of a decimal digit. *)
Definition digit_char (d : Z) : ascii := ascii_of_N (48 + Z.to_N d).

(** ** Example data *)

Definition pr_scenario1_current : pr_record :=
  PrRecord 7 "Fix login bug" EmptyString ["a.py"; "b.py"]
    "https://example.test/pr/7" "alice".

Definition pr_scenario1_candidate : pr_record :=
  PrRecord 5 "Fix login bug" EmptyString ["a.py"; "b.py"; "c.py"]
    "https://example.test/pr/5" "bob".

Definition pr_blank : pr_record :=
  PrRecord 9 EmptyString EmptyString [] "https://example.test/pr/9" "carol".

Definition cand_numbered (n : Z) : pr_record :=
  PrRecord n "Fix login bug" EmptyString ["a.py"] "https://example.test/pr" "bob".

(** Five candidates with the same score, as in scenario 5. *)
Definition five_equal : list scored :=
  map (fun n => (Float.of_decimal 9 10, Float.one, Float.of_decimal 75 100, cand_numbered n))
      [11; 12; 13; 14; 15].

(** A result that meets the score threshold but not the overlap threshold,
    as in scenario 4. *)
Definition low_overlap : scored :=
  (Float.of_decimal 5 10, Float.of_decimal 39 100, Float.of_decimal 6 10, cand_numbered 21).

(** A small repository: pull request 7 is the current one, 5 duplicates it,
    3 is unrelated and 2 was last updated before the cutoff. *)
Definition pr7 : pr_json :=
  PrJson 7 "Fix login bug" (Some "Fixes the login bug")
    "https://example.test/pr/7" "alice" "open" "2024-05-06T10:00:00Z".

Definition pr5 : pr_json :=
  PrJson 5 "Fix login bug" None
    "https://example.test/pr/5" "bob" "closed" "2024-05-05T09:30:00Z".

Definition pr3 : pr_json :=
  PrJson 3 "Update docs" (Some "Typos")
    "https://example.test/pr/3" "carol" "open" "2024-05-04T08:00:00Z".

Definition pr2 : pr_json :=
  PrJson 2 "Old login work" None
    "https://example.test/pr/2" "dave" "closed" "2024-04-01T00:00:00Z".

Definition demo_files (n : Z) : list (result (list file_json)) :=
  if (n =? 7)%Z then [Ok [FileJson "a.py"; FileJson "b.py"]]
  else if (n =? 5)%Z then [Ok [FileJson "a.py"]; Ok [FileJson "b.py"; FileJson "c.py"]]
  else [Ok [FileJson "README.md"]].

Definition demo_hook : string := "https://hooks.example.test/T000".

Definition demo_world (hook : option string)
    (pulls : list (result (list pr_json))) (post : result response) : World :=
  {| pr_number := 7;
     slack_webhook := hook;
     api_pull := fun n => if (n =? 7)%Z then Ok pr7 else Raise HTTPError;
     api_pull_files := demo_files;
     api_pulls := pulls;
     utcnow_minus_days := fun _ => "2024-05-01T12:00:00.000000";
     requests_post := fun _ _ => post |}.

Definition w_quiet : World :=
  demo_world (Some demo_hook) [Ok [pr7; pr3]] (Ok (Response 200 "ok")).

Definition w_duplicate : World :=
  demo_world (Some demo_hook) [Ok [pr7; pr5]; Ok [pr3; pr2]] (Ok (Response 200 "ok")).

Definition w_rejected : World :=
  demo_world (Some demo_hook) [Ok [pr7; pr5]] (Ok (Response 500 "internal error")).

Definition w_unreachable : World :=
  demo_world (Some demo_hook) [Ok [pr7; pr5]] (Raise ConnectionError).

Definition w_no_hook : World :=
  demo_world None [Ok [pr7; pr5]] (Raise ConnectionError).

Definition w_out_of_order : World :=
  demo_world (Some demo_hook) [Ok [pr7; pr2; pr5]] (Ok (Response 200 "ok")).

(** A listing whose third page cannot be read, and a file listing with an
    empty page before a failing one. *)
Definition w_broken_listing : World :=
  demo_world (Some demo_hook)
    [Ok [pr7; pr5]; Ok [pr3; pr2]; Raise HTTPError] (Ok (Response 200 "ok")).

Definition w_broken_files : World :=
  {| pr_number := 7;
     slack_webhook := None;
     api_pull := fun _ => Ok pr7;
     api_pull_files := fun n =>
       if (n =? 7)%Z then [Ok [FileJson "a.py"; FileJson "b.py"]; Ok [FileJson "a.py"];
                           Ok []; Raise HTTPError]
       else [Ok [FileJson "c.py"]; Raise HTTPError; Ok [FileJson "d.py"]];
     api_pulls := [Ok [pr7; pr5]; Ok [pr3]; Raise HTTPError];
     utcnow_minus_days := fun _ => "2024-05-01T12:00:00.000000";
     requests_post := fun _ _ => Raise ConnectionError |}.

(** Four scored candidates in listing order, the best one last. *)
Definition four_scored : list scored :=
  [ (Float.of_decimal 7 10, Float.one, Float.of_decimal 25 100, cand_numbered 31);
    (Float.of_decimal 6 10, Float.one, Float.zero, cand_numbered 32);
    (Float.of_decimal 7 10, Float.one, Float.of_decimal 25 100, cand_numbered 33);
    (Float.of_decimal 9 10, Float.one, Float.of_decimal 75 100, cand_numbered 34) ].

Definition pr_unrelated_files : pr_record :=
  PrRecord 6 "Fix login bug" EmptyString ["x.py"; "y.py"]
    "https://example.test/pr/6" "erin".

Definition pr_other_text : pr_record :=
  PrRecord 4 "Refactor parser" "Nothing in common" ["b.py"; "a.py"; "z.py"]
    "https://example.test/pr/4" "frank".

(** * Properties *)

(** ** Rounding to binary64 is monotone *)

Module FloatFacts.
Import Float.
Local Open Scope Q_scope.

Lemma pow2_pos e : 0 < pow2 e.
Proof. apply Qpower_0_lt. reflexivity. Qed.

Lemma pow2_add a b : pow2 (a + b) == pow2 a * pow2 b.
Proof. apply Qpower_plus. discriminate. Qed.

Lemma pow2_le a b : (a <= b)%Z -> pow2 a <= pow2 b.
Proof. intros. apply Qpower_le_compat_l; [assumption | discriminate]. Qed.

Lemma pow2_lt_inv a b : pow2 a < pow2 b -> (a < b)%Z.
Proof. intros. eapply Qpower_lt_compat_l_inv; [eassumption | reflexivity]. Qed.

Lemma pow2_inject n : (0 <= n)%Z -> inject_Z (2 ^ n) == pow2 n.
Proof. intros. apply Zpower_Qpower. assumption. Qed.

Lemma pow2_sub a b : pow2 (a - b) == pow2 a / pow2 b.
Proof.
  unfold Z.sub. rewrite pow2_add. unfold pow2 at 2. rewrite Qpower_opp. reflexivity.
Qed.

Lemma Qdiv_lt_bounds p q P Ql : 0 < Ql -> Ql <= q -> 0 <= p -> p < P -> p / q < P / Ql.
Proof.
  intros HQl Hq Hp HP.
  assert (0 < q) by lra.
  apply Qlt_shift_div_r; [assumption|].
  assert (E : P / Ql * q == (P * q) / Ql) by (field; lra).
  rewrite E. apply Qlt_shift_div_l; [assumption|]. nra.
Qed.

Lemma Qdiv_le_bounds p q P Ql : 0 < q -> q <= Ql -> 0 <= P -> P <= p -> P / Ql <= p / q.
Proof.
  intros Hq HQl HP Hp.
  assert (0 < Ql) by lra.
  apply Qle_shift_div_l; [assumption|].
  assert (E : P / Ql * q == (P * q) / Ql) by (field; lra).
  rewrite E. apply Qle_shift_div_r; [assumption|]. nra.
Qed.

Lemma ilog2_spec x : 0 < x -> pow2 (ilog2 x) <= x /\ x < pow2 (ilog2 x + 1).
Proof.
  intros Hx. destruct x as [p q]. 
  assert (Hp : (0 < p)%Z) by (unfold Qlt in Hx; simpl in Hx; lia).
  unfold ilog2. cbn [Qnum Qden].
  destruct (Z.log2_spec p Hp) as [Hp1 Hp2].
  destruct (Z.log2_spec (Zpos q) (Pos2Z.is_pos q)) as [Hq1 Hq2].
  pose proof (Z.log2_nonneg p) as Hlp. pose proof (Z.log2_nonneg (Zpos q)) as Hlq.
  set (lp := Z.log2 p) in *. set (lq := Z.log2 (Zpos q)) in *.
  assert (Ex : p # q == inject_Z p / inject_Z (Zpos q)) by apply Qmake_Qdiv.
  assert (Hp1' : pow2 lp <= inject_Z p) by (rewrite <- pow2_inject, <- Zle_Qle; assumption).
  assert (Hp2' : inject_Z p < pow2 (lp + 1)) by (rewrite <- pow2_inject, <- Zlt_Qlt by lia; assumption).
  assert (Hq1' : pow2 lq <= inject_Z (Zpos q)) by (rewrite <- pow2_inject, <- Zle_Qle; assumption).
  assert (Hq2' : inject_Z (Zpos q) < pow2 (lq + 1)) by (rewrite <- pow2_inject, <- Zlt_Qlt by lia; assumption).
  pose proof (pow2_pos lp). pose proof (pow2_pos lq). pose proof (pow2_pos (lq + 1)).
  destruct (Qle_bool (pow2 (lp - lq)) (p # q)) eqn:Hb.
  - apply Qle_bool_iff in Hb. split; [assumption|].
    replace (lp - lq + 1)%Z with (lp + 1 - lq)%Z by lia.
    rewrite pow2_sub, Ex. apply Qdiv_lt_bounds; lra.
  - assert (Hlt : p # q < pow2 (lp - lq)).
    { apply Qnot_le_lt. intros Hle. apply Qle_bool_iff in Hle. congruence. }
    replace (lp - lq - 1 + 1)%Z with (lp - lq)%Z by lia. split; [|assumption].
    replace (lp - lq - 1)%Z with (lp - (lq + 1))%Z by lia.
    rewrite pow2_sub, Ex. apply Qdiv_le_bounds; lra.
Qed.

Lemma ilog2_mono x y : 0 < x -> x <= y -> (ilog2 x <= ilog2 y)%Z.
Proof.
  intros Hx Hxy.
  destruct (ilog2_spec x Hx) as [H1 _].
  destruct (ilog2_spec y) as [_ H2]; [lra|].
  assert (H : pow2 (ilog2 x) < pow2 (ilog2 y + 1)) by lra.
  apply pow2_lt_inv in H. lia.
Qed.

Lemma rhe_cases x :
  round_half_even x = Qfloor x \/ round_half_even x = (Qfloor x + 1)%Z.
Proof.
  unfold round_half_even.
  destruct (_ ?= _); [destruct (Z.even _)|..]; auto.
Qed.

Lemma rhe_mono x y : x <= y -> (round_half_even x <= round_half_even y)%Z.
Proof.
  intros Hxy.
  pose proof (Qfloor_resp_le _ _ Hxy) as Hf.
  destruct (Z.eq_dec (Qfloor x) (Qfloor y)) as [E|NE].
  - unfold round_half_even. rewrite <- E.
    destruct (Qcompare_spec (x - inject_Z (Qfloor x)) (1 # 2)) as [H1|H1|H1];
    destruct (Qcompare_spec (y - inject_Z (Qfloor x)) (1 # 2)) as [H2|H2|H2];
    try destruct (Z.even (Qfloor x)); try lia; lra.
  - destruct (rhe_cases x) as [-> | ->], (rhe_cases y) as [-> | ->]; lia.
Qed.

Lemma rhe_inject z : round_half_even (inject_Z z) = z.
Proof.
  unfold round_half_even. rewrite Qfloor_Z.
  destruct (Qcompare_spec (inject_Z z - inject_Z z) (1 # 2)) as [H|H|H];
    [lra | reflexivity | lra].
Qed.

Lemma rhe_ge z x : inject_Z z <= x -> (z <= round_half_even x)%Z.
Proof. intros H. rewrite <- (rhe_inject z). apply rhe_mono, H. Qed.

Lemma rhe_le z x : x <= inject_Z z -> (round_half_even x <= z)%Z.
Proof. intros H. rewrite <- (rhe_inject z). apply rhe_mono, H. Qed.

Lemma Qnum_pos x : 0 < x -> exists p, Qnum x = Zpos p.
Proof.
  destruct x as [[|p|p] q]; unfold Qlt; simpl; intros; try lia. eauto.
Qed.

Lemma rnd_pos_eq x :
  0 < x ->
  rnd_pos x = inject_Z (round_half_even (x / pow2 (ulp_exp x))) * pow2 (ulp_exp x).
Proof. intros Hx. destruct (Qnum_pos x Hx) as [p Hp]. unfold rnd_pos. rewrite Hp. reflexivity. Qed.

Lemma rnd_pos_nonneg x : 0 <= rnd_pos x.
Proof.
  destruct (Qlt_le_dec 0 x) as [Hx|Hx].
  - rewrite rnd_pos_eq by assumption.
    pose proof (pow2_pos (ulp_exp x)) as Hp.
    assert (0 <= x / pow2 (ulp_exp x)) by (apply Qle_shift_div_l; lra).
    assert (H0 : (0 <= round_half_even (x / pow2 (ulp_exp x)))%Z) by (apply rhe_ge; assumption).
    rewrite Zle_Qle in H0. apply Qmult_le_0_compat; [exact H0 | lra].
  - unfold rnd_pos. destruct x as [[|p|p] q]; cbn; try lra.
    unfold Qle in Hx; simpl in Hx; lia.
Qed.

Lemma ulp_exp_mono x y : 0 < x -> x <= y -> (ulp_exp x <= ulp_exp y)%Z.
Proof. intros Hx Hxy. pose proof (ilog2_mono x y Hx Hxy). unfold ulp_exp. lia. Qed.

Lemma rnd_pos_mono x y : 0 <= x -> x <= y -> rnd_pos x <= rnd_pos y.
Proof.
  intros Hx Hxy.
  destruct (Qlt_le_dec 0 x) as [Hx'|Hx'].
  2:{ assert (E : rnd_pos x = 0).
      { unfold rnd_pos. destruct x as [[|p|p] q]; cbn; try reflexivity.
        unfold Qle in Hx'; simpl in Hx'; lia. }
      rewrite E. apply rnd_pos_nonneg. }
  assert (Hy : 0 < y) by lra.
  rewrite !rnd_pos_eq by assumption.
  pose proof (ulp_exp_mono x y Hx' Hxy) as He.
  set (ex := ulp_exp x) in *. set (ey := ulp_exp y) in *.
  pose proof (pow2_pos ex) as Hpx. pose proof (pow2_pos ey) as Hpy.
  destruct (Z.eq_dec ex ey) as [E|NE].
  - rewrite <- E.
    assert (H : x / pow2 ex <= y / pow2 ex).
    { apply Qle_shift_div_l; [assumption|].
      assert (E' : x / pow2 ex * pow2 ex == x) by (field; lra). lra. }
    apply rhe_mono in H. rewrite Zle_Qle in H. apply Qmult_le_compat_r; [exact H | lra].
  - assert (Hlt : (ex + 1 <= ey)%Z) by lia.
    (* y sits in a normal binade: its significand is at least 2^52 *)
    assert (Hey : ey = (ilog2 y - (prec - 1))%Z).
    { subst ey ex. unfold ulp_exp in *. lia. }
    destruct (ilog2_spec y Hy) as [Hy1 _].
    destruct (ilog2_spec x Hx') as [_ Hx2].
    assert (Hy2 : pow2 (ey + 52) <= y).
    { replace (ey + 52)%Z with (ilog2 y) by (unfold prec in Hey; lia). assumption. }
    assert (Hx3 : x < pow2 (ex + 53)).
    { eapply Qlt_le_trans; [exact Hx2|]. apply pow2_le. subst ex. unfold ulp_exp, prec. lia. }
    rewrite pow2_add in Hy2, Hx3.
    assert (Hmy : inject_Z (2 ^ 52) <= y / pow2 ey).
    { rewrite pow2_inject by lia. apply Qle_shift_div_l; [assumption|]. lra. }
    assert (Hmx : x / pow2 ex <= inject_Z (2 ^ 53)).
    { rewrite pow2_inject by lia. apply Qle_shift_div_r; [assumption|]. lra. }
    apply rhe_ge in Hmy. apply rhe_le in Hmx. rewrite Zle_Qle in Hmy, Hmx.
    rewrite pow2_inject in Hmy, Hmx by lia.
    assert (Hstep : pow2 53 * pow2 ex <= pow2 52 * pow2 ey).
    { rewrite <- !pow2_add. apply pow2_le. lia. }
    pose proof (pow2_pos 52). pose proof (pow2_pos 53).
    eapply Qle_trans; [|eapply Qle_trans; [exact Hstep|]].
    + apply Qmult_le_compat_r; lra.
    + apply Qmult_le_compat_r; lra.
Qed.

(** The rounded value is half a unit in the last place from the exact
    one at most, and is a significand of 53 bits at most times a power of
    two of the binary64 range. *)
Lemma rhe_error x : Qabs (inject_Z (round_half_even x) - x) <= 1 # 2.
Proof.
  pose proof (Qfloor_le x) as Hlo. pose proof (Qlt_floor x) as Hhi.
  rewrite inject_Z_plus in Hhi. change (inject_Z 1) with 1 in Hhi.
  unfold round_half_even.
  destruct (Qcompare_spec (x - inject_Z (Qfloor x)) (1 # 2)) as [H|H|H];
    [destruct (Z.even (Qfloor x))|..];
    rewrite ?inject_Z_plus; change (inject_Z 1) with 1;
    apply Qabs_Qle_condition; split; lra.
Qed.

Lemma rnd_pos_error x :
  0 < x -> Qabs (rnd_pos x - x) <= (1 # 2) * pow2 (ulp_exp x).
Proof.
  intros Hx. rewrite rnd_pos_eq by assumption.
  set (p := pow2 (ulp_exp x)). pose proof (pow2_pos (ulp_exp x)) as Hp. fold p in Hp.
  assert (E : inject_Z (round_half_even (x / p)) * p - x
              == (inject_Z (round_half_even (x / p)) - x / p) * p) by (field; lra).
  rewrite E, Qabs_Qmult, (Qabs_pos p) by lra.
  apply Qmult_le_compat_r; [apply rhe_error | lra].
Qed.

Lemma rnd_pos_representable x :
  0 < x ->
  exists m e, rnd_pos x = inject_Z m * pow2 e
              /\ (0 <= m <= 2 ^ prec)%Z /\ (emin <= e)%Z.
Proof.
  intros Hx. exists (round_half_even (x / pow2 (ulp_exp x))), (ulp_exp x).
  split; [apply rnd_pos_eq, Hx|].
  pose proof (pow2_pos (ulp_exp x)) as Hp.
  destruct (ilog2_spec x Hx) as [_ Hhi].
  split; [split|].
  - apply rhe_ge. apply Qle_shift_div_l; [assumption|]. change (inject_Z 0) with 0. lra.
  - apply rhe_le. rewrite pow2_inject by (unfold prec; lia).
    apply Qle_shift_div_r; [assumption|]. rewrite <- pow2_add.
    eapply Qle_trans; [apply Qlt_le_weak, Hhi|]. apply pow2_le.
    unfold ulp_exp, prec. lia.
  - unfold ulp_exp. lia.
Qed.

Lemma rnd_eq_nonneg x : 0 <= x -> rnd x == rnd_pos (Qred x).
Proof.
  intros Hx. unfold rnd.
  assert (H : 0 <= Qred x) by (rewrite Qred_correct; assumption).
  destruct (Qred x) as [[|p|p] q] eqn:E; cbn [Qnum]; try apply Qred_correct.
  unfold Qle in H; simpl in H; lia.
Qed.

Lemma rnd_nonneg x : 0 <= x -> 0 <= rnd x.
Proof. intros Hx. rewrite rnd_eq_nonneg by assumption. apply rnd_pos_nonneg. Qed.

Lemma rnd_mono x y : 0 <= x -> x <= y -> rnd x <= rnd y.
Proof.
  intros Hx Hxy. rewrite !rnd_eq_nonneg by lra.
  apply rnd_pos_mono; rewrite !Qred_correct; assumption.
Qed.

Lemma rnd_proper x y : x == y -> rnd x = rnd y.
Proof. intros H. unfold rnd. rewrite (Qred_complete _ _ H). reflexivity. Qed.

Lemma rnd_one : rnd 1 = 1.
Proof. vm_compute. reflexivity. Qed.

Lemma rnd_zero : rnd 0 = 0.
Proof. vm_compute. reflexivity. Qed.

(** A value in [0,1] rounds into [0,1]. *)
Lemma rnd_unit x : 0 <= x <= 1 -> 0 <= rnd x <= 1.
Proof.
  intros [H0 H1]. split; [apply rnd_nonneg, H0|].
  pose proof (rnd_mono x 1 H0 H1) as H. rewrite rnd_one in H. exact H.
Qed.

(** A weight times a ratio of [0,1] stays below the weight. *)
Lemma mul_weight c x :
  0 <= c -> rnd c = c -> 0 <= x <= 1 -> 0 <= mul c x <= c.
Proof.
  intros Hc Hrep [H0 H1]. unfold mul. split.
  - apply rnd_nonneg. nra.
  - assert (H : rnd (c * x) <= rnd c) by (apply rnd_mono; nra).
    rewrite Hrep in H. exact H.
Qed.

End FloatFacts.

(** ** The rounding on known binary64 values *)

(** [0.6], [0.4] and [1/3] as binary64 numbers. *)
Example rnd_six_tenths :
  Float.of_decimal 6 10 = (5404319552844595 # 9007199254740992)%Q.
Proof. vm_compute. reflexivity. Qed.

Example rnd_four_tenths :
  Float.of_decimal 4 10 = (3602879701896397 # 9007199254740992)%Q.
Proof. vm_compute. reflexivity. Qed.

Example rnd_third :
  Float.rnd (1 # 3) = (6004799503160661 # 18014398509481984)%Q.
Proof. vm_compute. reflexivity. Qed.

(** [0.1 + 0.2] is [0.30000000000000004], not [0.3]. *)
Example float_add_tenth_fifth :
  Float.add (Float.of_decimal 1 10) (Float.of_decimal 2 10)
  = (1351079888211149 # 4503599627370496)%Q
  /\ Float.add (Float.of_decimal 1 10) (Float.of_decimal 2 10)
     <> Float.of_decimal 3 10.
Proof. split; [vm_compute; reflexivity | vm_compute; discriminate]. Qed.

(** A tie is resolved to the even significand: 2^53 + 1 rounds down and
    2^53 + 3 rounds up. *)
Example rnd_ties_to_even :
  Float.rnd (inject_Z (2 ^ 53 + 1)) = inject_Z (2 ^ 53)
  /\ Float.rnd (inject_Z (2 ^ 53 + 3)) = inject_Z (2 ^ 53 + 4).
Proof. split; vm_compute; reflexivity. Qed.

(** Below the normal range the spacing is 2^-1074. *)
Example rnd_subnormal :
  Float.rnd (Float.pow2 (-1075)) = 0%Q
  /\ Float.rnd (3 * Float.pow2 (-1075)) = Qred (Float.pow2 (-1073)).
Proof. split; vm_compute; reflexivity. Qed.

(** The two-digit rendering rounds the exact value, ties to even. *)
Example format_2f_values :
  Float.format_2f (Float.of_decimal 84 100) = "0.84"%string
  /\ Float.format_2f (1 # 8)%Q = "0.12"%string
  /\ Float.format_2f (3 # 8)%Q = "0.38"%string
  /\ Float.format_2f 1%Q = "1.00"%string.
Proof. repeat split; vm_compute; reflexivity. Qed.

(** [tokenize] on a title with capitals, punctuation and repetition. *)
Example tokenize_title :
  tokenize (Some "Fix login-bug: fix Login_v2!"%string)
  = {[ "fix"%string; "login"%string; "bug"%string; "login_v2"%string ]}
  /\ tokenize None = ∅
  /\ tokenize (Some "  ?! "%string) = ∅.
Proof. repeat split; vm_compute; reflexivity. Qed.

(** ** Sets, lengths and integer division *)

Lemma len_nonneg (s : gset string) : 0 <= len s.
Proof. unfold len. lia. Qed.

Lemma len_zero_iff (s : gset string) : len s = 0 <-> s = ∅.
Proof.
  unfold len. rewrite <- (leibniz_equiv_iff s ∅), <- size_empty_iff. lia.
Qed.

Lemma len_inter_le (s1 s2 : gset string) : len (s1 ∩ s2) <= len s1.
Proof.
  unfold len. apply inj_le, subseteq_size, intersection_subseteq_l.
Qed.

Lemma len_inter_le_union (s1 s2 : gset string) : len (s1 ∩ s2) <= len (s1 ∪ s2).
Proof.
  unfold len. apply inj_le, subseteq_size.
  etrans; [apply intersection_subseteq_l | apply union_subseteq_l].
Qed.

Lemma inter_self (s : gset string) : s ∩ s = s.
Proof. apply intersection_idemp_L. Qed.

Lemma union_self (s : gset string) : s ∪ s = s.
Proof. apply union_idemp_L. Qed.

Lemma inter_swap (s1 s2 : gset string) : s1 ∩ s2 = s2 ∩ s1.
Proof. apply intersection_comm_L. Qed.

Lemma union_swap (s1 s2 : gset string) : s1 ∪ s2 = s2 ∪ s1.
Proof. apply union_comm_L. Qed.

Lemma nonempty_true (s : gset string) : nonempty s = true <-> s ≠ ∅.
Proof.
  unfold nonempty. rewrite negb_true_iff, bool_decide_eq_false. reflexivity.
Qed.

Lemma nonempty_false (s : gset string) : nonempty s = false <-> s = ∅.
Proof.
  unfold nonempty. rewrite negb_false_iff, bool_decide_eq_true. reflexivity.
Qed.

(** Dividing [a] by a positive [b >= a] gives a float of [0,1]. *)
Lemma true_div_unit (a b : Z) :
  0 <= a <= b -> 0 < b ->
  true_div a b = Ok (Float.rnd (inject_Z a / inject_Z b))
  /\ (0 <= Float.rnd (inject_Z a / inject_Z b) <= 1)%Q.
Proof.
  intros Hab Hb. unfold true_div.
  destruct (Z.eqb_spec b 0) as [->|_]; [lia|]. split; [reflexivity|].
  apply FloatFacts.rnd_unit.
  assert (0 < inject_Z b)%Q by (rewrite (Zlt_Qlt 0 b) in Hb; exact Hb).
  assert (0 <= inject_Z a)%Q by (change 0%Q with (inject_Z 0); rewrite <- Zle_Qle; lia).
  assert (inject_Z a <= inject_Z b)%Q by (rewrite <- Zle_Qle; lia).
  split.
  - apply Qle_shift_div_l; [assumption | lra].
  - apply Qle_shift_div_r; [assumption | lra].
Qed.

(** A positive integer divided by itself is exactly [1.0]. *)
Lemma true_div_self (a : Z) : 0 < a -> true_div a a = Ok Float.one.
Proof.
  intros Ha. unfold true_div.
  destruct (Z.eqb_spec a 0) as [->|_]; [lia|]. f_equal.
  unfold Float.one. rewrite <- FloatFacts.rnd_one. apply FloatFacts.rnd_proper.
  assert (0 < inject_Z a)%Q by (rewrite (Zlt_Qlt 0 a) in Ha; exact Ha).
  field. lra.
Qed.

(** ** [jaccard] *)

Lemma jaccard_empty : jaccard ∅ ∅ = Ok Float.zero.
Proof. reflexivity. Qed.

Lemma jaccard_unit (s1 s2 : gset string) :
  exists j, jaccard s1 s2 = Ok j /\ (0 <= j <= 1)%Q.
Proof.
  unfold jaccard.
  destruct (negb (nonempty s1) && negb (nonempty s2)).
  { exists Float.zero. split; [reflexivity | unfold Float.zero; lra]. }
  destruct (Z.eqb_spec (len (s1 ∪ s2)) 0) as [E|NE]; cbn [negb].
  { exists Float.zero. split; [reflexivity | unfold Float.zero; lra]. }
  pose proof (len_nonneg (s1 ∪ s2)). pose proof (len_nonneg (s1 ∩ s2)).
  pose proof (len_inter_le_union s1 s2).
  destruct (true_div_unit (len (s1 ∩ s2)) (len (s1 ∪ s2))) as [-> Hr]; [lia..|].
  eauto.
Qed.

Lemma jaccard_self (s : gset string) : s ≠ ∅ -> jaccard s s = Ok Float.one.
Proof.
  intros Hs. unfold jaccard.
  apply nonempty_true in Hs as Hne. rewrite Hne. cbn [negb andb].
  rewrite inter_self, union_self.
  pose proof (len_nonneg s). assert (len s ≠ 0) by (rewrite len_zero_iff; exact Hs).
  destruct (Z.eqb_spec (len s) 0); [contradiction|]. cbn [negb].
  apply true_div_self. lia.
Qed.

Lemma jaccard_sym (s1 s2 : gset string) : jaccard s1 s2 = jaccard s2 s1.
Proof.
  unfold jaccard.
  rewrite (andb_comm (negb (nonempty s1))).
  rewrite (inter_swap s2 s1), (union_swap s2 s1).
  reflexivity.
Qed.

(** C4: for all token sets, [jaccard] returns a value of [0,1]; it is [1.0]
    on a non-empty set and itself, [0.0] on two empty sets, and symmetric. *)
Theorem jaccard_properties (s1 s2 : gset string) :
  (exists j, jaccard s1 s2 = Ok j /\ (0 <= j <= 1)%Q)
  /\ (s1 ≠ ∅ -> jaccard s1 s1 = Ok Float.one)
  /\ jaccard ∅ ∅ = Ok Float.zero
  /\ jaccard s1 s2 = jaccard s2 s1.
Proof.
  split; [apply jaccard_unit|].
  split; [apply jaccard_self|].
  split; [apply jaccard_empty | apply jaccard_sym].
Qed.

Lemma jaccard_properties_witness :
  jaccard {["fix"; "login"; "bug"]} {["fix"; "login"; "bug"]} = Ok Float.one.
Proof.
  apply (jaccard_properties {["fix"; "login"; "bug"]} ∅).
  apply nonempty_true. vm_compute. reflexivity.
Defined.

(** ** [compute_similarity] *)

Lemma weight_files_rep :
  (0 <= weight_files)%Q /\ Float.rnd weight_files = weight_files.
Proof. split; [vm_compute; discriminate | vm_compute; reflexivity]. Qed.

Lemma weight_text_rep :
  (0 <= weight_text)%Q /\ Float.rnd weight_text = weight_text.
Proof. split; [vm_compute; discriminate | vm_compute; reflexivity]. Qed.

Lemma weights_sum : Float.rnd (weight_files + weight_text) = 1%Q.
Proof. vm_compute. reflexivity. Qed.

(** The weighted sum of two ratios of [0,1] is in [0,1]. *)
Lemma weighted_sum_unit (fo ts : float) :
  (0 <= fo <= 1)%Q -> (0 <= ts <= 1)%Q ->
  (0 <= Float.add (Float.mul weight_files fo) (Float.mul weight_text ts) <= 1)%Q.
Proof.
  intros Hfo Hts.
  destruct weight_files_rep as [Hf0 Hf], weight_text_rep as [Ht0 Ht].
  pose proof (FloatFacts.mul_weight _ _ Hf0 Hf Hfo) as [Ha0 Ha].
  pose proof (FloatFacts.mul_weight _ _ Ht0 Ht Hts) as [Hb0 Hb].
  unfold Float.add. split.
  - apply FloatFacts.rnd_nonneg. lra.
  - rewrite <- weights_sum. apply FloatFacts.rnd_mono; lra.
Qed.

Lemma file_overlap_unit (cur_files cand_files : gset string) :
  exists fo, file_overlap_of cur_files cand_files = Ok fo /\ (0 <= fo <= 1)%Q.
Proof.
  unfold file_overlap_of. destruct (nonempty cur_files) eqn:Hne; cbn [negb].
  - apply nonempty_true in Hne. rewrite <- len_zero_iff in Hne.
    pose proof (len_nonneg cur_files). pose proof (len_nonneg (cur_files ∩ cand_files)).
    pose proof (len_inter_le cur_files cand_files).
    destruct (true_div_unit (len (cur_files ∩ cand_files)) (len cur_files))
      as [-> Hr]; [lia..|]. eauto.
  - exists Float.zero. split; [reflexivity | unfold Float.zero; lra].
Qed.

Lemma compute_similarity_unfold (current candidate : pr_record) :
  compute_similarity current candidate =
  match file_overlap_of (list_to_set (files current)) (list_to_set (files candidate)) with
  | Ok fo =>
      match jaccard (tokenize (Some (title current +:+ " " +:+ body current)))
                    (tokenize (Some (title candidate +:+ " " +:+ body candidate))) with
      | Ok ts =>
          Ok (Float.add (Float.mul weight_files fo) (Float.mul weight_text ts), fo, ts)
      | Raise e => Raise e
      end
  | Raise e => Raise e
  end.
Proof. reflexivity. Qed.

(** The two ratios and how the result is assembled from them. *)
Lemma compute_similarity_parts (current candidate : pr_record) :
  exists fo ts,
    file_overlap_of (list_to_set (files current)) (list_to_set (files candidate)) = Ok fo
    /\ jaccard (tokenize (Some (title current +:+ " " +:+ body current)))
               (tokenize (Some (title candidate +:+ " " +:+ body candidate))) = Ok ts
    /\ compute_similarity current candidate
       = Ok (Float.add (Float.mul weight_files fo) (Float.mul weight_text ts), fo, ts)
    /\ (0 <= fo <= 1)%Q /\ (0 <= ts <= 1)%Q.
Proof.
  rewrite compute_similarity_unfold.
  destruct (file_overlap_unit (list_to_set (files current))
              (list_to_set (files candidate))) as (fo & -> & Hfo).
  destruct (jaccard_unit
              (tokenize (Some (title current +:+ " " +:+ body current)))
              (tokenize (Some (title candidate +:+ " " +:+ body candidate))))
    as (ts & -> & Hts).
  exists fo, ts. auto.
Qed.

(** C1: for every pair of records [compute_similarity] returns a triple
    (score, file_overlap, text_similarity) with both ratios in [0,1] and the
    score computed as 0.6 * file_overlap + 0.4 * text_similarity, itself in
    [0,1]. *)
Theorem compute_similarity_score_range (current candidate : pr_record) :
  exists score fo ts,
    compute_similarity current candidate = Ok (score, fo, ts)
    /\ (0 <= fo <= 1)%Q
    /\ (0 <= ts <= 1)%Q
    /\ score = Float.add (Float.mul (Float.of_decimal 6 10) fo)
                         (Float.mul (Float.of_decimal 4 10) ts)
    /\ (0 <= score <= 1)%Q.
Proof.
  destruct (compute_similarity_parts current candidate)
    as (fo & ts & _ & _ & Hcs & Hfo & Hts).
  eexists _, fo, ts. split; [exact Hcs|].
  split; [exact Hfo|]. split; [exact Hts|]. split; [reflexivity|].
  apply weighted_sum_unit; assumption.
Qed.

Lemma file_overlap_empty (cand_files : gset string) :
  file_overlap_of ∅ cand_files = Ok Float.zero.
Proof. reflexivity. Qed.

Lemma file_overlap_nonempty (cur_files cand_files : gset string) :
  cur_files ≠ ∅ ->
  file_overlap_of cur_files cand_files
  = Ok (Float.rnd (inject_Z (len (cur_files ∩ cand_files)) / inject_Z (len cur_files))).
Proof.
  intros Hne. unfold file_overlap_of.
  apply nonempty_true in Hne as Hb. rewrite Hb. cbn [negb].
  unfold true_div. destruct (Z.eqb_spec (len cur_files) 0) as [E|_]; [|reflexivity].
  apply len_zero_iff in E. contradiction.
Qed.

Lemma file_overlap_superset (cur_files cand_files : gset string) :
  cur_files ≠ ∅ -> cur_files ⊆ cand_files ->
  file_overlap_of cur_files cand_files = Ok Float.one.
Proof.
  intros Hne Hsub. unfold file_overlap_of.
  apply nonempty_true in Hne as Hb. rewrite Hb. cbn [negb].
  replace (cur_files ∩ cand_files) with cur_files
    by (symmetry; apply subseteq_intersection_1_L, Hsub).
  apply true_div_self.
  pose proof (len_nonneg cur_files).
  assert (len cur_files ≠ 0) by (rewrite len_zero_iff; exact Hne). lia.
Qed.

(** C2: [file_overlap] is [0.0] for an empty current file set, otherwise the
    quotient of the number of shared files by the number of current files;
    a candidate whose files include all current files scores [1.0]. *)
Theorem file_overlap_spec (current candidate : pr_record) :
  let cur_files : gset string := list_to_set (files current) in
  let cand_files : gset string := list_to_set (files candidate) in
  exists score fo ts,
    compute_similarity current candidate = Ok (score, fo, ts)
    /\ (cur_files = ∅ -> fo = Float.zero)
    /\ (cur_files ≠ ∅ ->
        true_div (len (cur_files ∩ cand_files)) (len cur_files) = Ok fo
        /\ fo = Float.rnd (inject_Z (len (cur_files ∩ cand_files))
                           / inject_Z (len cur_files)))
    /\ (cur_files ≠ ∅ -> cur_files ⊆ cand_files -> fo = Float.one).
Proof.
  intros cur_files cand_files.
  destruct (compute_similarity_parts current candidate)
    as (fo & ts & Hfo & _ & Hcs & _).
  fold cur_files cand_files in Hfo.
  eexists _, fo, ts. split; [exact Hcs|].
  split; [|split].
  - intros E. rewrite E, file_overlap_empty in Hfo. congruence.
  - intros Hne. pose proof Hfo as Hfo'.
    rewrite file_overlap_nonempty in Hfo by assumption.
    split; [|congruence].
    unfold file_overlap_of in Hfo'. apply nonempty_true in Hne.
    rewrite Hne in Hfo'. exact Hfo'.
  - intros Hne Hsub. rewrite file_overlap_superset in Hfo by assumption. congruence.
Qed.

Lemma file_overlap_spec_witness :
  exists score ts,
    compute_similarity pr_scenario1_current pr_scenario1_candidate
    = Ok (score, Float.one, ts).
Proof.
  destruct (file_overlap_spec pr_scenario1_current pr_scenario1_candidate)
    as (score & fo & ts & Hcs & _ & _ & Hsup).
  rewrite Hsup in Hcs.
  - exists score, ts. exact Hcs.
  - apply nonempty_true. vm_compute. reflexivity.
  - apply (bool_decide_unpack _). vm_compute. exact I.
Defined.

(** Scenario 1 and scenario 3 of the specification, evaluated. *)
Example scenario1 :
  compute_similarity pr_scenario1_current pr_scenario1_candidate = Ok (1, 1, 1)%Q.
Proof. vm_compute. reflexivity. Qed.

Example scenario2 :
  compute_similarity pr_blank pr_scenario1_candidate = Ok (0, 0, 0)%Q.
Proof. vm_compute. reflexivity. Qed.

(** The overlap is relative to the current record: with the two records of
    scenario 1 exchanged it is the float nearest to 2/3. *)
Example overlap_asymmetric :
  exists score ts,
    compute_similarity pr_scenario1_candidate pr_scenario1_current
    = Ok (score, Float.rnd (2 # 3), ts).
Proof. eexists _, _. vm_compute. reflexivity. Qed.

(** C9: [compute_similarity] returns for every pair of records; with an
    empty current file set the file overlap is [0.0], and with no token on
    either side the text similarity is [0.0]. *)
Theorem compute_similarity_total (current candidate : pr_record) :
  (exists r, compute_similarity current candidate = Ok r)
  /\ (files current = [] ->
      exists score ts, compute_similarity current candidate = Ok (score, Float.zero, ts))
  /\ (tokenize (Some (title current +:+ " " +:+ body current)) = ∅ ->
      tokenize (Some (title candidate +:+ " " +:+ body candidate)) = ∅ ->
      exists score fo, compute_similarity current candidate = Ok (score, fo, Float.zero)).
Proof.
  destruct (compute_similarity_parts current candidate)
    as (fo & ts & Hfo & Hts & Hcs & _).
  split; [eauto|]. split.
  - intros E. rewrite E in Hfo. cbn [list_to_set foldr] in Hfo.
    rewrite file_overlap_empty in Hfo.
    assert (fo = Float.zero) as -> by congruence. eauto.
  - intros E1 E2. rewrite E1, E2, jaccard_empty in Hts.
    assert (ts = Float.zero) as -> by congruence. eauto.
Qed.

Lemma compute_similarity_total_witness :
  exists score, compute_similarity pr_blank pr_blank = Ok (score, Float.zero, Float.zero).
Proof.
  destruct (compute_similarity_total pr_blank pr_blank) as (_ & _ & H).
  destruct H as (score & fo & Hcs); [vm_compute; reflexivity..|].
  destruct (compute_similarity_total pr_blank pr_blank) as (_ & H & _).
  destruct H as (score' & ts & Hcs'); [reflexivity|].
  exists score. rewrite Hcs in Hcs'.
  assert (fo = Float.zero) as -> by congruence. exact Hcs.
Defined.

(** Records that differ only in file lists with equal sets score alike. *)
Lemma compute_similarity_same_sets
    (n1 n2 : Z) (t1 b1 u1 a1 t2 b2 u2 a2 : string)
    (fs1 fs1' fs2 fs2' : list string) :
  list_to_set fs1 =@{gset string} list_to_set fs1' ->
  list_to_set fs2 =@{gset string} list_to_set fs2' ->
  compute_similarity (PrRecord n1 t1 b1 fs1 u1 a1) (PrRecord n2 t2 b2 fs2 u2 a2)
  = compute_similarity (PrRecord n1 t1 b1 fs1' u1 a1) (PrRecord n2 t2 b2 fs2' u2 a2).
Proof.
  intros E1 E2. rewrite !compute_similarity_unfold. cbn [files title body].
  rewrite E1, E2. reflexivity.
Qed.

Lemma same_members_same_set (fs fs' : list string) :
  (forall x, x ∈ fs <-> x ∈ fs') -> list_to_set fs =@{gset string} list_to_set fs'.
Proof.
  intros H. apply set_eq. intros x. rewrite !elem_of_list_to_set. apply H.
Qed.

(** C10: [compute_similarity] reads the two file lists only through the
    sets of their members: lists with the same members, in any order and
    with any repetition, give the same triple. *)
Theorem compute_similarity_files_as_set
    (n1 n2 : Z) (t1 b1 u1 a1 t2 b2 u2 a2 : string)
    (fs1 fs1' fs2 fs2' : list string) :
  (forall x, x ∈ fs1 <-> x ∈ fs1') ->
  (forall x, x ∈ fs2 <-> x ∈ fs2') ->
  compute_similarity (PrRecord n1 t1 b1 fs1 u1 a1) (PrRecord n2 t2 b2 fs2 u2 a2)
  = compute_similarity (PrRecord n1 t1 b1 fs1' u1 a1) (PrRecord n2 t2 b2 fs2' u2 a2).
Proof.
  intros H1 H2.
  apply compute_similarity_same_sets; apply same_members_same_set; assumption.
Qed.

Lemma compute_similarity_files_as_set_witness :
  compute_similarity
    (PrRecord 7 "Fix login bug" "body" ["a.py"; "b.py"] "u7" "alice")
    (PrRecord 5 "Fix login" "text" ["b.py"; "c.py"] "u5" "bob")
  = compute_similarity
    (PrRecord 7 "Fix login bug" "body" ["b.py"; "a.py"; "b.py"] "u7" "alice")
    (PrRecord 5 "Fix login" "text" ["c.py"; "c.py"; "b.py"; "c.py"] "u5" "bob").
Proof.
  apply compute_similarity_files_as_set.
  - intros x. rewrite !elem_of_cons, elem_of_nil. tauto.
  - intros x. rewrite !elem_of_cons, elem_of_nil. tauto.
Defined.

(** Reordering a file list does not change the result. *)
Lemma compute_similarity_permutation (current candidate : pr_record)
    (fs : list string) :
  fs ≡ₚ files current ->
  compute_similarity
    (PrRecord (number current) (title current) (body current) fs
       (url current) (author current)) candidate
  = compute_similarity current candidate.
Proof.
  intros Hp. destruct current, candidate. cbn [number title body files url author] in *.
  apply compute_similarity_same_sets; [|reflexivity].
  apply same_members_same_set. intros x. rewrite Hp. tauto.
Qed.

(** [get_pr_files] returns the concatenation of the pages before the first
    empty one, so a path listed on two pages occurs twice. *)
Lemma get_pr_files_loop_concat (pages : list (list file_json)) (acc : list string) :
  get_pr_files_loop (map Ok pages) acc = Ok (acc ++ fetched_files pages).
Proof.
  revert acc. induction pages as [|chunk rest IH]; intros acc; cbn.
  - rewrite app_nil_r. reflexivity.
  - destruct chunk as [|f chunk]; [rewrite app_nil_r; reflexivity|].
    rewrite IH, <- app_assoc. reflexivity.
Qed.

(** ** Selection: gate, stable sort, truncation *)

Section Selection.

Local Open Scope Q_scope.

Lemma ltb_true (x y : float) : Float.ltb x y = true <-> x < y.
Proof.
  unfold Float.ltb. rewrite negb_true_iff. split.
  - intros Hb. apply Qnot_le_lt. intros Hle. apply Qle_bool_iff in Hle. congruence.
  - intros Hlt. destruct (Qle_bool y x) eqn:Hb; [|reflexivity].
    apply Qle_bool_iff in Hb. lra.
Qed.

Lemma ltb_false (x y : float) : Float.ltb x y = false <-> y <= x.
Proof.
  unfold Float.ltb. rewrite negb_false_iff. apply Qle_bool_iff.
Qed.

Lemma geb_true (x y : float) : Float.geb x y = true <-> y <= x.
Proof. apply Qle_bool_iff. Qed.

Lemma gated_thresholds (x : scored) :
  gated x <-> Float.of_decimal 5 10 <= score_of x /\ Float.of_decimal 4 10 <= overlap_of x.
Proof.
  unfold gated, passes_gate. rewrite andb_True, !Is_true_true, !geb_true. reflexivity.
Qed.

Lemma insert_desc_perm (x : scored) (l : list scored) : insert_desc x l ≡ₚ x :: l.
Proof.
  induction l as [|y l IH]; cbn; [reflexivity|].
  destruct (Float.ltb (score_of x) (score_of y)); [|reflexivity].
  rewrite IH. apply Permutation_swap.
Qed.

Lemma sort_desc_perm (l : list scored) : sort_desc l ≡ₚ l.
Proof.
  induction l as [|x l IH]; cbn; [reflexivity|].
  rewrite insert_desc_perm, IH. reflexivity.
Qed.

Lemma insert_desc_sorted (x : scored) (l : list scored) :
  StronglySorted score_ge l -> StronglySorted score_ge (insert_desc x l).
Proof.
  induction 1 as [|y l Hl IH Hy]; cbn.
  - repeat constructor.
  - destruct (Float.ltb (score_of x) (score_of y)) eqn:Hb.
    + apply ltb_true in Hb. constructor; [exact IH|].
      rewrite insert_desc_perm. constructor; [unfold score_ge; lra | exact Hy].
    + apply ltb_false in Hb. constructor; [constructor; assumption|].
      constructor; [exact Hb|].
      eapply Forall_impl; [exact Hy|]. unfold score_ge. intros z Hz. lra.
Qed.

Lemma sort_desc_sorted (l : list scored) : StronglySorted score_ge (sort_desc l).
Proof.
  induction l as [|x l IH]; cbn; [constructor | apply insert_desc_sorted, IH].
Qed.

Lemma same_score_lt (s : float) (x y : scored) :
  score_of x < score_of y -> same_score s x -> ~ same_score s y.
Proof.
  unfold same_score. rewrite !Is_true_true, !Qeq_bool_iff. intros Hlt E1 E2. lra.
Qed.

(** Inserting keeps the order of the entries of any one score. *)
Lemma filter_insert_desc (s : float) (x : scored) (l : list scored) :
  filter (same_score s) (insert_desc x l) = filter (same_score s) (x :: l).
Proof.
  induction l as [|y l IH]; cbn [insert_desc]; [reflexivity|].
  destruct (Float.ltb (score_of x) (score_of y)) eqn:Hb; [|reflexivity].
  apply ltb_true in Hb.
  rewrite (filter_cons _ y), IH, !(filter_cons _ x), (filter_cons _ y).
  destruct (decide (same_score s x)) as [Hx|Hx]; [|reflexivity].
  destruct (decide (same_score s y)) as [Hy|Hy]; [|reflexivity].
  exfalso. exact (same_score_lt s x y Hb Hx Hy).
Qed.

Lemma filter_sort_desc (s : float) (l : list scored) :
  filter (same_score s) (sort_desc l) = filter (same_score s) l.
Proof.
  induction l as [|x l IH]; cbn [sort_desc foldr]; [reflexivity|].
  fold (sort_desc l). rewrite filter_insert_desc, !filter_cons, IH. reflexivity.
Qed.

Lemma filter_take_prefix (P : scored -> bool) (n : nat) (l : list scored) :
  filter P (take n l) `prefix_of` filter P l.
Proof.
  rewrite <- (take_drop n l) at 2. rewrite filter_app.
  exists (filter P (drop n l)). reflexivity.
Qed.

Lemma sorted_take (n : nat) (l : list scored) :
  StronglySorted score_ge l -> StronglySorted score_ge (take n l).
Proof.
  intros Hs. rewrite <- (take_drop n l) in Hs.
  apply StronglySorted_app_1_l in Hs. exact Hs.
Qed.

Lemma same_score_refl (x : scored) : same_score (score_of x) x.
Proof. unfold same_score. apply Is_true_true, Qeq_bool_iff. reflexivity. Qed.

Lemma same_score_head (s : float) (x : scored) (l l' : list scored) :
  filter (same_score s) l = x :: l' -> In x l /\ same_score s x.
Proof.
  intros E. assert (Hin : x ∈ filter (same_score s) l) by (rewrite E; left).
  apply list_elem_of_filter in Hin as [Hs Hin]. split; [|exact Hs].
  apply list_elem_of_In, Hin.
Qed.

(** The head of a sorted list has the greatest score of the list. *)
Lemma sorted_head_ge (x y : scored) (l : list scored) :
  StronglySorted score_ge (x :: l) -> In y (x :: l) -> score_ge x y.
Proof.
  intros Hs [<-|Hin].
  - unfold score_ge. lra.
  - apply StronglySorted_inv in Hs as [_ Hall].
    rewrite Forall_forall in Hall. apply Hall, list_elem_of_In, Hin.
Qed.

(** A list in descending order of score is determined by the order of its
    entries within each score: there is one stable sort. *)
Lemma stable_sorted_unique (l1 l2 : list scored) :
  StronglySorted score_ge l1 -> StronglySorted score_ge l2 ->
  (forall s, filter (same_score s) l1 = filter (same_score s) l2) ->
  l1 = l2.
Proof.
  revert l2. induction l1 as [|x l1 IH]; intros [|y l2] H1 H2 Hf.
  - reflexivity.
  - specialize (Hf (score_of y)).
    rewrite filter_nil, filter_cons, decide_True in Hf by apply same_score_refl.
    discriminate.
  - specialize (Hf (score_of x)).
    rewrite filter_nil, filter_cons, decide_True in Hf by apply same_score_refl.
    discriminate.
  - assert (Hxy : score_ge x y).
    { pose proof (Hf (score_of y)) as E.
      rewrite (filter_cons _ y), decide_True in E by apply same_score_refl.
      apply same_score_head in E as [Hin _]. exact (sorted_head_ge _ _ _ H1 Hin). }
    assert (Hyx : score_ge y x).
    { pose proof (Hf (score_of x)) as E. symmetry in E.
      rewrite (filter_cons _ x), decide_True in E by apply same_score_refl.
      apply same_score_head in E as [Hin _]. exact (sorted_head_ge _ _ _ H2 Hin). }
    assert (Hy : same_score (score_of x) y).
    { unfold same_score, score_ge in *. apply Is_true_true, Qeq_bool_iff. lra. }
    assert (x = y) as <-.
    { pose proof (Hf (score_of x)) as E.
      rewrite !filter_cons, !decide_True in E by (exact Hy || apply same_score_refl).
      congruence. }
    f_equal. apply IH.
    + apply StronglySorted_inv in H1 as [H1 _]. exact H1.
    + apply StronglySorted_inv in H2 as [H2 _]. exact H2.
    + intros s. specialize (Hf s). rewrite !filter_cons in Hf.
      destruct (decide (same_score s x)); congruence.
Qed.

(** Hence [sort_desc] computes what any stable descending sort computes. *)
Lemma sort_desc_unique (l l' : list scored) :
  StronglySorted score_ge l' ->
  (forall s, filter (same_score s) l' = filter (same_score s) l) ->
  l' = sort_desc l.
Proof.
  intros Hs Hf. apply stable_sorted_unique; [exact Hs | apply sort_desc_sorted |].
  intros s. rewrite filter_sort_desc. apply Hf.
Qed.

End Selection.

(** C3: the selection returns at most three results, each meeting both
    thresholds, in non-increasing order of score, and the results of any one
    score are the first ones of that score among the gated input, in input
    order. *)
Theorem select_spec (results : list scored) :
  (length (select results) <= 3)%nat
  /\ Forall (fun x => (Float.of_decimal 5 10 <= score_of x)%Q
                      /\ (Float.of_decimal 4 10 <= overlap_of x)%Q) (select results)
  /\ StronglySorted score_ge (select results)
  /\ forall s : float,
       filter (same_score s) (select results)
       `prefix_of` filter (same_score s) (filter gated results).
Proof.
  unfold select, select_top. split; [|split; [|split]].
  - rewrite length_take. lia.
  - apply Forall_take. rewrite sort_desc_perm.
    apply Forall_forall. intros x Hx. apply list_elem_of_filter in Hx as [Hg _].
    exact (proj1 (gated_thresholds x) Hg).
  - apply sorted_take, sort_desc_sorted.
  - intros s. rewrite <- (filter_sort_desc s (filter gated results)).
    apply filter_take_prefix.
Qed.

(** Scenario 4: a result below the overlap threshold is dropped. *)
Example scenario4 : select [low_overlap] = [].
Proof. vm_compute. reflexivity. Qed.

(** Scenario 5: of five results with one score the first three are kept. *)
Example scenario5 : select five_equal = take 3 five_equal.
Proof. vm_compute. reflexivity. Qed.

(** ** The listing of recent pull requests *)

Lemma take_while_app_all {A : Type} (p : A -> bool) (l1 l2 : list A) :
  take_while p l1 = l1 -> take_while p (l1 ++ l2) = l1 ++ take_while p l2.
Proof.
  induction l1 as [|x l1 IH]; cbn; [reflexivity|].
  destruct (p x); [|discriminate]. intros [= E]. rewrite IH by exact E. reflexivity.
Qed.

Lemma take_while_app_stop {A : Type} (p : A -> bool) (l1 l2 : list A) :
  take_while p l1 ≠ l1 -> take_while p (l1 ++ l2) = take_while p l1.
Proof.
  induction l1 as [|x l1 IH]; cbn; [congruence|].
  destruct (p x); [|reflexivity]. intros Hne. f_equal. apply IH. congruence.
Qed.

(** One page: the early return happens at the first entry out of the
    window, otherwise the whole page is appended. *)
Lemma scan_page_spec (since : string) (res prs : list pr_json) :
  match scan_page since res prs with
  | inl prs' => prs' = prs ++ take_while (in_window since) res
                /\ take_while (in_window since) res ≠ res
  | inr prs' => prs' = prs ++ res /\ take_while (in_window since) res = res
  end.
Proof.
  revert prs. induction res as [|pr res IH]; intros prs; cbn [scan_page take_while].
  - rewrite app_nil_r. auto.
  - assert (Hl : String.ltb (pj_updated_at pr) since = negb (in_window since pr))
      by (unfold in_window; rewrite negb_involutive; reflexivity).
    rewrite Hl. destruct (in_window since pr); cbn [negb].
    + specialize (IH (prs ++ [pr])).
      destruct (scan_page since res (prs ++ [pr])) as [prs'|prs'];
        destruct IH as [-> IH]; rewrite <- app_assoc; cbn [app].
      * split; [reflexivity | intros [= E]; exact (IH E)].
      * split; [reflexivity | rewrite IH; reflexivity].
    + rewrite app_nil_r. split; [reflexivity | discriminate].
Qed.

Lemma get_recent_prs_loop_spec (since : string) (pages : list (list pr_json))
    (prs : list pr_json) :
  get_recent_prs_loop since (map Ok pages) prs
  = Ok (prs ++ take_while (in_window since) (fetched_prs pages)).
Proof.
  revert prs. induction pages as [|res rest IH]; intros prs;
    cbn [map get_recent_prs_loop fetched_prs].
  - cbn. rewrite app_nil_r. reflexivity.
  - destruct res as [|pr res]; [cbn; rewrite app_nil_r; reflexivity|].
    pose proof (scan_page_spec since (pr :: res) prs) as Hs.
    destruct (scan_page since (pr :: res) prs) as [prs'|prs']; destruct Hs as [-> Hs].
    + rewrite take_while_app_stop by exact Hs. reflexivity.
    + rewrite IH, take_while_app_all by exact Hs. rewrite app_assoc. reflexivity.
Qed.

Lemma in_window_le (since : string) (pr : pr_json) :
  in_window since pr = true <-> String.le since (pj_updated_at pr).
Proof.
  unfold in_window, String.le, String.ltb, String.leb.
  rewrite (String.compare_antisym since).
  destruct (String.compare (pj_updated_at pr) since); cbn; intuition congruence.
Qed.

Lemma filter_none {A : Type} (p : A -> bool) (l : list A) :
  Forall (fun x => p x = false) l -> filter (fun x => p x) l = [].
Proof.
  induction 1 as [|x l Hx _ IH]; [reflexivity|].
  rewrite filter_cons, decide_False by (rewrite Hx; cbv; auto). exact IH.
Qed.

(** In a listing ordered newest first nothing after the first entry out of
    the window is in the window. *)
Lemma take_while_newest_first (since : string) (l : list pr_json) :
  newest_first l ->
  take_while (in_window since) l = filter (fun pr => in_window since pr) l.
Proof.
  induction 1 as [|a l Hl IH Ha]; [reflexivity|].
  cbn [take_while]. rewrite filter_cons.
  destruct (in_window since a) eqn:Hw.
  - rewrite decide_True by (cbv; exact I). rewrite IH. reflexivity.
  - rewrite decide_False by (cbv; auto).
    symmetry. apply filter_none.
    eapply Forall_impl; [exact Ha|]. cbn beta. intros b Hb.
    destruct (in_window since b) eqn:Hwb; [|reflexivity].
    apply in_window_le in Hwb.
    assert (Hwa : in_window since a = true).
    { apply in_window_le. etrans; [exact Hwb | exact Hb]. }
    congruence.
Qed.

Lemma take_while_all {A : Type} (p : A -> bool) (l : list A) :
  Forall (fun x => p x = true) (take_while p l).
Proof.
  induction l as [|x l IH]; cbn; [constructor|].
  destruct (p x) eqn:Hx; constructor; assumption.
Qed.

(** C5 (as amended): without HTTP failures [get_recent_prs] returns the
    entries read before the first one older than the cutoff, all of them in
    the window; on a listing ordered newest first these are exactly the
    entries in the window. *)
Theorem get_recent_prs_window (w : World) (days : Z) (pages : list (list pr_json)) :
  api_pulls w = map Ok pages ->
  let since := utcnow_minus_days w days +:+ "Z" in
  exists prs,
    get_recent_prs w days = Ok prs
    /\ prs = take_while (in_window since) (fetched_prs pages)
    /\ Forall (fun pr => in_window since pr = true) prs
    /\ (newest_first (fetched_prs pages) ->
        prs = filter (fun pr => in_window since pr) (fetched_prs pages)).
Proof.
  intros Hp since. unfold get_recent_prs. fold since. rewrite Hp.
  rewrite get_recent_prs_loop_spec. cbn [app].
  eexists. split; [reflexivity|]. split; [reflexivity|].
  split; [apply take_while_all|].
  intros Hs. apply take_while_newest_first, Hs.
Qed.

Lemma get_recent_prs_window_witness :
  get_recent_prs w_duplicate 7 = Ok [pr7; pr5; pr3].
Proof.
  destruct (get_recent_prs_window w_duplicate 7 [[pr7; pr5]; [pr3; pr2]])
    as (prs & Hget & _ & _ & Hsorted); [reflexivity|].
  rewrite Hget, Hsorted; [vm_compute; reflexivity|].
  repeat constructor; vm_compute; exact I.
Defined.

(** C5 as stated fails: an entry in the window that follows an older entry
    on the same page is not returned. *)
Lemma get_recent_prs_skips_in_window_entry :
  api_pulls w_out_of_order = [Ok [pr7; pr2; pr5]]
  /\ in_window (utcnow_minus_days w_out_of_order 7 +:+ "Z") pr5 = true
  /\ get_recent_prs w_out_of_order 7 = Ok [pr7]
  /\ ~ In pr5 [pr7].
Proof.
  split; [reflexivity|]. split; [vm_compute; reflexivity|].
  split; [vm_compute; reflexivity|].
  intros [H|[]]. discriminate H.
Qed.

(** ** The run *)

Lemma bind_lift_ok {A B : Type} (a : A) (f : A -> run B) :
  (lift (Ok a) ≫= f) = f a.
Proof.
  unfold mbind, run_bind, lift. cbn [outcome trace app]. destruct (f a); reflexivity.
Qed.

Lemma bind_lift_raise {A B : Type} (e : exn) (f : A -> run B) :
  (lift (Raise e) ≫= f) = Run [] (Raise e).
Proof. reflexivity. Qed.

(** [main] once its four reads have succeeded. *)
Lemma main_after_reads (w : World) (current_pr : pr_json)
    (current_files : list string) (recent_prs : list pr_json)
    (candidates : list scored) :
  get_pr w (pr_number w) = Ok current_pr ->
  get_pr_files w (pr_number w) = Ok current_files ->
  get_recent_prs w 7 = Ok recent_prs ->
  collect_candidates w (make_record current_pr current_files) recent_prs []
  = Ok candidates ->
  main w =
  match candidates with
  | [] => print "No similar PRs found."
  | _ => notify_slack w
           (join newline
              (message_lines (make_record current_pr current_files)
                 (select_top candidates)))
  end.
Proof.
  intros H1 H2 H3 H4. unfold main.
  rewrite H1, bind_lift_ok, H2, bind_lift_ok, H3, bind_lift_ok, H4, bind_lift_ok.
  reflexivity.
Qed.

(** A run that raises before the candidates are known does nothing else. *)
Lemma main_trace_cases (w : World) :
  trace (main w) = []
  \/ exists current_pr current_files recent_prs candidates,
       get_pr w (pr_number w) = Ok current_pr
       /\ get_pr_files w (pr_number w) = Ok current_files
       /\ get_recent_prs w 7 = Ok recent_prs
       /\ collect_candidates w (make_record current_pr current_files) recent_prs []
          = Ok candidates.
Proof.
  unfold main.
  destruct (get_pr w (pr_number w)) as [current_pr|e] eqn:H1;
    [rewrite bind_lift_ok | left; reflexivity].
  destruct (get_pr_files w (pr_number w)) as [current_files|e] eqn:H2;
    [rewrite bind_lift_ok | left; reflexivity].
  destruct (get_recent_prs w 7) as [recent_prs|e] eqn:H3;
    [rewrite bind_lift_ok | left; reflexivity].
  destruct (collect_candidates w (make_record current_pr current_files) recent_prs [])
    as [candidates|e] eqn:H4; [| left; reflexivity].
  right. exists current_pr, current_files, recent_prs, candidates. auto.
Qed.

(** C6: when no candidate passes the gate the run prints the report and
    stops: its trace holds that line only, so no request is posted. *)
Theorem no_candidates_no_notification (w : World) (current_pr : pr_json)
    (current_files : list string) (recent_prs : list pr_json) :
  get_pr w (pr_number w) = Ok current_pr ->
  get_pr_files w (pr_number w) = Ok current_files ->
  get_recent_prs w 7 = Ok recent_prs ->
  collect_candidates w (make_record current_pr current_files) recent_prs [] = Ok [] ->
  main w = Run [Print "No similar PRs found."] (Ok tt)
  /\ forall hook message, ~ In (Post hook message) (trace (main w)).
Proof.
  intros H1 H2 H3 H4.
  rewrite (main_after_reads w _ _ _ _ H1 H2 H3 H4).
  split; [reflexivity|]. intros hook message [H|[]]. discriminate H.
Qed.

Lemma no_candidates_no_notification_witness :
  main w_quiet = Run [Print "No similar PRs found."] (Ok tt).
Proof.
  apply (no_candidates_no_notification w_quiet pr7 ["a.py"; "b.py"] [pr7; pr3]);
    vm_compute; reflexivity.
Defined.

(** A request is posted only in a run that found a candidate. *)
Lemma main_post_needs_candidate (w : World) (hook message : string) :
  In (Post hook message) (trace (main w)) ->
  exists current_pr current_files recent_prs candidates,
    get_pr w (pr_number w) = Ok current_pr
    /\ get_pr_files w (pr_number w) = Ok current_files
    /\ get_recent_prs w 7 = Ok recent_prs
    /\ collect_candidates w (make_record current_pr current_files) recent_prs []
       = Ok candidates
    /\ candidates ≠ [].
Proof.
  intros Hpost. destruct (main_trace_cases w) as [E|H].
  - rewrite E in Hpost. destruct Hpost.
  - destruct H as (current_pr & current_files & recent_prs & candidates
                   & H1 & H2 & H3 & H4).
    exists current_pr, current_files, recent_prs, candidates.
    repeat (split; [assumption|]).
    intros ->. rewrite (main_after_reads w _ _ _ _ H1 H2 H3 H4) in Hpost.
    destruct Hpost as [H|[]]. discriminate H.
Qed.

(** ** The candidate loop *)

Lemma eligible_weaken (current : pr_record) (pr : pr_json)
    (recent_prs : list pr_json) (x : scored) :
  eligible current recent_prs x -> eligible current (pr :: recent_prs) x.
Proof.
  intros [Hne (pr' & Hin & E)]. split; [exact Hne|].
  exists pr'. split; [right; exact Hin | exact E].
Qed.

Lemma collect_candidates_eligible (w : World) (current : pr_record)
    (recent_prs : list pr_json) (acc candidates : list scored) :
  collect_candidates w current recent_prs acc = Ok candidates ->
  exists new, candidates = acc ++ new /\ Forall (eligible current recent_prs) new.
Proof.
  revert acc. induction recent_prs as [|pr rest IH]; intros acc; cbn [collect_candidates].
  - intros [= <-]. exists []. rewrite app_nil_r. auto.
  - assert (Hskip : collect_candidates w current rest acc = Ok candidates ->
                    exists new, candidates = acc ++ new
                                /\ Forall (eligible current (pr :: rest)) new).
    { intros H. destruct (IH _ H) as (new & -> & Hnew). exists new.
      split; [reflexivity|].
      eapply Forall_impl; [exact Hnew|]. intros x. apply eligible_weaken. }
    destruct (Z.eqb_spec (pj_number pr) (number current)) as [_|Hne]; [exact Hskip|].
    destruct (negb _); [exact Hskip|].
    destruct (get_pr_files w (pj_number pr)) as [files|e]; [|discriminate].
    cbn [mbind result_bind].
    destruct (compute_similarity current (make_record pr files))
      as [[[score file_overlap] text_sim]|e]; [|discriminate].
    cbn [mbind result_bind].
    destruct (passes_gate score file_overlap); [|exact Hskip].
    intros H. destruct (IH _ H) as (new & -> & Hnew).
    exists ((score, file_overlap, text_sim, make_record pr files) :: new).
    split; [rewrite <- app_assoc; reflexivity|].
    constructor.
    + split; [exact Hne|]. exists pr. split; [left; reflexivity | reflexivity].
    + eapply Forall_impl; [exact Hnew|]. intros x. apply eligible_weaken.
Qed.

(** C7: every tuple the candidate loop constructs belongs to a listed pull
    request whose number differs from the current one. *)
Theorem candidates_exclude_current (w : World) (current : pr_record)
    (recent_prs : list pr_json) (candidates : list scored) :
  collect_candidates w current recent_prs [] = Ok candidates ->
  Forall (fun x => number (cand_of x) ≠ number current
                   /\ exists pr, In pr recent_prs
                                 /\ pj_number pr = number (cand_of x))
         candidates.
Proof.
  intros H. destruct (collect_candidates_eligible _ _ _ _ _ H) as (new & -> & Hnew).
  exact Hnew.
Qed.

Lemma candidates_exclude_current_witness :
  exists x,
    collect_candidates w_duplicate (make_record pr7 ["a.py"; "b.py"]) [pr7; pr5; pr3] []
    = Ok [x]
    /\ number (cand_of x) ≠ 7.
Proof.
  eexists. split; [vm_compute; reflexivity|].
  eapply (Forall_inv (P := fun x => number (cand_of x) ≠ 7 /\ _)).
  apply (candidates_exclude_current w_duplicate
           (make_record pr7 ["a.py"; "b.py"]) [pr7; pr5; pr3]).
  vm_compute. reflexivity.
Defined.

(** The collected tuples all pass the gate, so sorting and truncating them
    is the selection step on them. *)
Lemma collect_candidates_gated (w : World) (current : pr_record)
    (recent_prs : list pr_json) (acc candidates : list scored) :
  collect_candidates w current recent_prs acc = Ok candidates ->
  Forall (fun x => gated x) acc -> Forall (fun x => gated x) candidates.
Proof.
  revert acc. induction recent_prs as [|pr rest IH]; intros acc; cbn [collect_candidates].
  - intros [= <-]. auto.
  - destruct (pj_number pr =? number current)%Z; [apply IH|].
    destruct (negb _); [apply IH|].
    destruct (get_pr_files w (pj_number pr)) as [files|e]; [|discriminate].
    cbn [mbind result_bind].
    destruct (compute_similarity current (make_record pr files))
      as [[[score file_overlap] text_sim]|e]; [|discriminate].
    cbn [mbind result_bind].
    destruct (passes_gate score file_overlap) eqn:Hg; [|apply IH].
    intros H Hacc. apply (IH _ H). apply Forall_app. split; [exact Hacc|].
    constructor; [|constructor]. unfold gated. cbn. rewrite Hg. exact I.
Qed.

Lemma select_of_gated (candidates : list scored) :
  Forall (fun x => gated x) candidates -> select candidates = select_top candidates.
Proof.
  intros H. unfold select. f_equal.
  induction H as [|x l Hx _ IH]; [reflexivity|].
  rewrite filter_cons, decide_True by exact Hx. rewrite IH. reflexivity.
Qed.

(** ** Notification *)

(** C8 (as amended): without a configured endpoint the delivery is skipped
    with a log line and nothing is posted; an answer of the endpoint, with
    any status code, is logged and the call returns; an exception of
    [requests.post] is not caught and ends the call. *)
Theorem notify_slack_outcomes (w : World) (message : string) :
  (webhook_set (slack_webhook w) = None ->
   notify_slack w message
   = Run [Print "SLACK_WEBHOOK_URL not set, skipping Slack notification"] (Ok tt))
  /\ (forall hook resp,
        webhook_set (slack_webhook w) = Some hook ->
        requests_post w hook message = Ok resp ->
        notify_slack w message
        = Run [Post hook message;
               Print ("Slack response: " +:+ pretty (status_code resp) +:+ " "
                      +:+ String.substring 0 200 (text resp))]
              (Ok tt))
  /\ (forall hook e,
        webhook_set (slack_webhook w) = Some hook ->
        requests_post w hook message = Raise e ->
        notify_slack w message = Run [Post hook message] (Raise e)).
Proof.
  unfold notify_slack. split; [|split].
  - intros ->. reflexivity.
  - intros hook resp -> Hr. unfold mbind, run_bind. cbn [outcome trace].
    rewrite Hr. reflexivity.
  - intros hook e -> Hr. unfold mbind, run_bind. cbn [outcome trace].
    rewrite Hr. reflexivity.
Qed.

Lemma notify_slack_outcomes_witness :
  notify_slack w_no_hook "hello"
  = Run [Print "SLACK_WEBHOOK_URL not set, skipping Slack notification"] (Ok tt)
  /\ notify_slack w_rejected "hello"
     = Run [Post demo_hook "hello"; Print "Slack response: 500 internal error"] (Ok tt)
  /\ notify_slack w_unreachable "hello"
     = Run [Post demo_hook "hello"] (Raise ConnectionError).
Proof.
  split; [|split].
  - apply (notify_slack_outcomes w_no_hook "hello"). reflexivity.
  - apply (proj1 (proj2 (notify_slack_outcomes w_rejected "hello"))
             demo_hook (Response 500 "internal error")); reflexivity.
  - apply (proj2 (proj2 (notify_slack_outcomes w_unreachable "hello"))
             demo_hook ConnectionError); reflexivity.
Defined.

(** C8 as stated fails: when the endpoint cannot be reached the exception
    leaves [main], after the duplicate was found. *)
Lemma unreachable_endpoint_fails_run :
  outcome (main w_unreachable) = Raise ConnectionError
  /\ exists message, trace (main w_unreachable) = [Post demo_hook message].
Proof.
  split; [vm_compute; reflexivity|]. eexists. vm_compute. reflexivity.
Qed.

(** A rejected request does not fail the run. *)
Example rejected_request_run :
  outcome (main w_rejected) = Ok tt
  /\ last (trace (main w_rejected)) = Some (Print "Slack response: 500 internal error").
Proof. split; vm_compute; reflexivity. Qed.

(** The message of a run that found a duplicate. *)
Example duplicate_run :
  main w_duplicate =
  Run [Post demo_hook
         (join newline
            [":mag: *Possible duplicate / overlapping PR detected*";
             "*Current PR:* <https://example.test/pr/7|#7 - Fix login bug> (author: alice)";
             EmptyString;
             "*Similar PRs within last 7 days:*";
             "- <https://example.test/pr/5|#5 - Fix login bug> (author: bob, score=0.84, files=1.00, text=0.60)"]);
       Print "Slack response: 200 ok"]
      (Ok tt).
Proof. vm_compute. reflexivity. Qed.

(** The outcome of a run that found a candidate is the outcome of the
    notification: an answered request, whatever its status, ends the run
    normally. *)
Lemma answered_request_run (w : World) (current_pr : pr_json)
    (current_files : list string) (recent_prs : list pr_json)
    (candidates : list scored) (hook : string) :
  get_pr w (pr_number w) = Ok current_pr ->
  get_pr_files w (pr_number w) = Ok current_files ->
  get_recent_prs w 7 = Ok recent_prs ->
  collect_candidates w (make_record current_pr current_files) recent_prs []
  = Ok candidates ->
  candidates ≠ [] ->
  webhook_set (slack_webhook w) = Some hook ->
  (forall message, exists resp, requests_post w hook message = Ok resp) ->
  outcome (main w) = Ok tt.
Proof.
  intros H1 H2 H3 H4 Hne Hhook Hpost.
  rewrite (main_after_reads w _ _ _ _ H1 H2 H3 H4).
  destruct candidates as [|x candidates]; [contradiction|].
  unfold notify_slack. rewrite Hhook. unfold mbind, run_bind. cbn [outcome trace].
  destruct (Hpost (join newline
                     (message_lines (make_record current_pr current_files)
                        (select_top (x :: candidates))))) as [resp ->].
  reflexivity.
Qed.

(** * Further properties of the script *)

(** ** [tokenize] *)

Lemma append_nil_l (s : string) : EmptyString +:+ s = s.
Proof. reflexivity. Qed.

Lemma append_cons (c : ascii) (s1 s2 : string) :
  String c s1 +:+ s2 = String c (s1 +:+ s2).
Proof. reflexivity. Qed.

Lemma all_chars_app (p : ascii -> bool) (s1 s2 : string) :
  all_chars p (s1 +:+ s2) = all_chars p s1 && all_chars p s2.
Proof.
  induction s1 as [|c s1 IH]; [reflexivity|].
  rewrite append_cons. cbn [all_chars]. rewrite IH, andb_assoc. reflexivity.
Qed.


Lemma flush_In (acc tok : string) :
  In tok (flush acc) <-> tok = acc /\ acc ≠ EmptyString.
Proof.
  destruct acc as [|c acc]; cbn.
  - split; [intros [] | intros [_ H]; congruence].
  - split; [intros [<-|[]]; split; [reflexivity | discriminate]
           | intros [-> _]; left; reflexivity].
Qed.

Lemma findall_tokens_wellformed (acc s tok : string) :
  all_chars is_token_char acc = true ->
  In tok (findall_tokens acc s) ->
  tok ≠ EmptyString /\ all_chars is_token_char tok = true.
Proof.
  revert acc. induction s as [|c s IH]; intros acc Hacc; cbn [findall_tokens].
  - intros [-> Hne]%flush_In. auto.
  - destruct (is_token_char c) eqn:Hc.
    + apply IH. rewrite all_chars_app, Hacc. cbn. rewrite Hc. reflexivity.
    + rewrite in_app_iff. intros [[-> Hne]%flush_In | Hin]; [auto|].
      apply (IH EmptyString); [reflexivity | exact Hin].
Qed.

(** Every token is a non-empty string over the characters [a-z], [0-9] and
    [_]: no upper-case letter, blank or punctuation survives. *)
Theorem tokenize_tokens_wellformed (text : option string) (tok : string) :
  tok ∈ tokenize text ->
  tok ≠ EmptyString /\ all_chars is_token_char tok = true.
Proof.
  unfold tokenize. rewrite elem_of_list_to_set, list_elem_of_In.
  apply findall_tokens_wellformed. reflexivity.
Qed.

Lemma tokenize_tokens_wellformed_witness :
  "login_v2"%string ≠ EmptyString
  /\ all_chars is_token_char "login_v2" = true.
Proof.
  apply (tokenize_tokens_wellformed (Some "Fix Login_v2!"%string)).
  apply (bool_decide_unpack _). vm_compute. exact I.
Defined.





Lemma tokenize_some (s : string) :
  tokenize (Some s) = list_to_set (findall_tokens EmptyString (lower s)).
Proof. reflexivity. Qed.

Lemma lower_app (s1 s2 : string) : lower (s1 +:+ s2) = lower s1 +:+ lower s2.
Proof.
  induction s1 as [|c s1 IH]; [reflexivity|].
  rewrite append_cons. cbn [lower]. rewrite IH. reflexivity.
Qed.

Lemma lower_char_idemp (c : ascii) : lower_char (lower_char c) = lower_char c.
Proof. destruct c as [[] [] [] [] [] [] [] []]; reflexivity. Qed.

Lemma lower_idemp (s : string) : lower (lower s) = lower s.
Proof.
  induction s as [|c s IH]; cbn; [reflexivity|].
  rewrite lower_char_idemp, IH. reflexivity.
Qed.

(** Reading up to a separator ends the token in progress; what follows is
    read from a fresh start. *)
Lemma findall_tokens_split (acc s1 s2 : string) (c : ascii) :
  is_token_char c = false ->
  findall_tokens acc (s1 +:+ String c s2)
  = findall_tokens acc s1 ++ findall_tokens EmptyString s2.
Proof.
  intros Hc. revert acc. induction s1 as [|d s1 IH]; intros acc.
  - rewrite append_nil_l. cbn [findall_tokens]. rewrite Hc. reflexivity.
  - rewrite append_cons. cbn [findall_tokens].
    destruct (is_token_char d); [apply IH|].
    rewrite IH, app_assoc. reflexivity.
Qed.

Lemma tokenize_separated (s1 s2 : string) (c : ascii) :
  is_separator c = true ->
  tokenize (Some (s1 +:+ String c s2)) = tokenize (Some s1) ∪ tokenize (Some s2).
Proof.
  intros Hc. rewrite !tokenize_some, lower_app. cbn [lower].
  rewrite findall_tokens_split
    by (unfold is_separator in Hc; apply negb_true_iff in Hc; exact Hc).
  apply list_to_set_app_L.
Qed.

(** The text compared by [compute_similarity], title and body joined by a
    blank, has the tokens of the title and those of the body: no token
    spans the two fields. *)
Theorem tokenize_title_body (ttl bdy : string) :
  tokenize (Some (ttl +:+ " " +:+ bdy)) = tokenize (Some ttl) ∪ tokenize (Some bdy).
Proof. apply (tokenize_separated ttl bdy " "%char). reflexivity. Qed.

Lemma tokenize_lower (s : string) : tokenize (Some (lower s)) = tokenize (Some s).
Proof. rewrite !tokenize_some, lower_idemp. reflexivity. Qed.

Lemma tokenize_same_lower (s s' : string) :
  lower s = lower s' -> tokenize (Some s) = tokenize (Some s').
Proof. intros E. rewrite !tokenize_some, E. reflexivity. Qed.

(** Letter case is ignored by the scoring: records whose titles and bodies
    differ only in the case of letters get the same triple. *)
Theorem compute_similarity_case_insensitive
    (n1 n2 : Z) (t1 t1' b1 b1' t2 t2' b2 b2' u1 a1 u2 a2 : string)
    (fs1 fs2 : list string) :
  lower t1 = lower t1' -> lower b1 = lower b1' ->
  lower t2 = lower t2' -> lower b2 = lower b2' ->
  compute_similarity (PrRecord n1 t1 b1 fs1 u1 a1) (PrRecord n2 t2 b2 fs2 u2 a2)
  = compute_similarity (PrRecord n1 t1' b1' fs1 u1 a1) (PrRecord n2 t2' b2' fs2 u2 a2).
Proof.
  intros Ht1 Hb1 Ht2 Hb2. rewrite !compute_similarity_unfold. cbn [files title body].
  rewrite (tokenize_same_lower (t1 +:+ " " +:+ b1) (t1' +:+ " " +:+ b1')),
          (tokenize_same_lower (t2 +:+ " " +:+ b2) (t2' +:+ " " +:+ b2')).
  - reflexivity.
  - rewrite !lower_app, Ht2, Hb2. reflexivity.
  - rewrite !lower_app, Ht1, Hb1. reflexivity.
Qed.

Lemma compute_similarity_case_insensitive_witness :
  compute_similarity
    (PrRecord 7 "Fix Login BUG" "See #12" ["a.py"] "u7" "alice")
    (PrRecord 5 "FIX login" "Bug" ["a.py"] "u5" "bob")
  = compute_similarity
    (PrRecord 7 "fix login bug" "see #12" ["a.py"] "u7" "alice")
    (PrRecord 5 "fix LOGIN" "bug" ["a.py"] "u5" "bob").
Proof.
  apply compute_similarity_case_insensitive; reflexivity.
Defined.


(** ** [get_pr_files] *)

(** Non-empty pages are appended one after the other. *)
Lemma get_pr_files_loop_pages (pages : list (list file_json))
    (rest : list (result (list file_json))) (acc : list string) :
  Forall (fun chunk => chunk ≠ []) pages ->
  get_pr_files_loop (map Ok pages ++ rest) acc
  = get_pr_files_loop rest (acc ++ concat (map (map filename) pages)).
Proof.
  intros Hne. revert acc. induction Hne as [|chunk pages Hc _ IH]; intros acc.
  - cbn. rewrite app_nil_r. reflexivity.
  - cbn [map app concat]. destruct chunk as [|f chunk]; [contradiction|].
    cbn [get_pr_files_loop]. rewrite IH, <- app_assoc. reflexivity.
Qed.

(** The file list is complete: all names of the pages read, in page order,
    repetitions included, up to the first empty page or the end of the
    listing; pages after an empty one are not requested. *)
Theorem get_pr_files_complete (w : World) (pr_num : Z)
    (pages : list (list file_json)) (rest : list (result (list file_json))) :
  Forall (fun chunk => chunk ≠ []) pages ->
  api_pull_files w pr_num = map Ok pages \/
  api_pull_files w pr_num = map Ok pages ++ Ok [] :: rest ->
  get_pr_files w pr_num = Ok (concat (map (map filename) pages)).
Proof.
  intros Hne [E|E]; unfold get_pr_files; rewrite E.
  - rewrite <- (app_nil_r (map Ok pages)), get_pr_files_loop_pages by exact Hne.
    reflexivity.
  - rewrite get_pr_files_loop_pages by exact Hne. reflexivity.
Qed.

Lemma get_pr_files_complete_witness :
  get_pr_files w_broken_files 7 = Ok ["a.py"; "b.py"; "a.py"]%string.
Proof.
  apply (get_pr_files_complete w_broken_files 7
           [[FileJson "a.py"; FileJson "b.py"]; [FileJson "a.py"]] [Raise HTTPError]).
  - repeat constructor; discriminate.
  - right. reflexivity.
Defined.

(** A request that fails before an empty page was seen makes the whole
    call raise: the names read so far are not returned. *)
Theorem get_pr_files_failure (w : World) (pr_num : Z)
    (pages : list (list file_json)) (e : exn)
    (rest : list (result (list file_json))) :
  Forall (fun chunk => chunk ≠ []) pages ->
  api_pull_files w pr_num = map Ok pages ++ Raise e :: rest ->
  get_pr_files w pr_num = Raise e.
Proof.
  intros Hne E. unfold get_pr_files. rewrite E.
  rewrite get_pr_files_loop_pages by exact Hne. reflexivity.
Qed.

Lemma get_pr_files_failure_witness :
  get_pr_files w_broken_files 5 = Raise HTTPError.
Proof.
  apply (get_pr_files_failure w_broken_files 5
           [[FileJson "c.py"]] HTTPError [Ok [FileJson "d.py"]]).
  - repeat constructor; discriminate.
  - reflexivity.
Defined.

(** ** [get_recent_prs]: which pages are read *)

Lemma take_while_id_iff {A : Type} (p : A -> bool) (l : list A) :
  take_while p l = l <-> forallb p l = true.
Proof.
  induction l as [|x l IH]; cbn; [tauto|].
  destruct (p x); cbn.
  - rewrite <- IH. split; [intros [= E]; exact E | intros ->; reflexivity].
  - split; discriminate.
Qed.

(** Non-empty pages read without failure: either all their entries are in
    the window and the loop goes on with the next page, or it returns at
    the first entry out of the window. *)
Lemma get_recent_prs_loop_pages (since : string) (pages : list (list pr_json))
    (rest : list (result (list pr_json))) (prs : list pr_json) :
  Forall (fun res => res ≠ []) pages ->
  get_recent_prs_loop since (map Ok pages ++ rest) prs
  = if forallb (in_window since) (concat pages)
    then get_recent_prs_loop since rest (prs ++ concat pages)
    else Ok (prs ++ take_while (in_window since) (concat pages)).
Proof.
  intros Hne. revert prs. induction Hne as [|res pages Hr _ IH]; intros prs.
  - cbn. rewrite app_nil_r. reflexivity.
  - cbn [map app concat]. destruct res as [|pr res]; [contradiction|].
    cbn [get_recent_prs_loop]. rewrite forallb_app.
    pose proof (scan_page_spec since (pr :: res) prs) as Hs.
    destruct (scan_page since (pr :: res) prs) as [prs'|prs']; destruct Hs as [-> Hs].
    + rewrite take_while_app_stop by exact Hs.
      rewrite take_while_id_iff in Hs. apply not_true_is_false in Hs.
      rewrite Hs. reflexivity.
    + rewrite IH, take_while_app_all by exact Hs.
      apply take_while_id_iff in Hs. rewrite Hs, <- !app_assoc. reflexivity.
Qed.

(** Early exit: once an entry older than the cutoff has been read, no
    further page is requested, so what the later pages hold, or whether
    they can be read at all, does not matter. *)
Theorem get_recent_prs_early_exit (w : World) (days : Z)
    (pages : list (list pr_json)) (rest : list (result (list pr_json)))
    (old : pr_json) :
  api_pulls w = map Ok pages ++ rest ->
  Forall (fun res => res ≠ []) pages ->
  In old (concat pages) ->
  in_window (utcnow_minus_days w days +:+ "Z") old = false ->
  get_recent_prs w days
  = Ok (take_while (in_window (utcnow_minus_days w days +:+ "Z")) (concat pages)).
Proof.
  intros E Hne Hin Hold. unfold get_recent_prs. rewrite E.
  rewrite get_recent_prs_loop_pages by exact Hne.
  destruct (forallb _ (concat pages)) eqn:Hall; [|reflexivity].
  rewrite forallb_forall in Hall. apply Hall in Hin. congruence.
Qed.

Lemma get_recent_prs_early_exit_witness :
  get_recent_prs w_broken_listing 7 = Ok [pr7; pr5; pr3].
Proof.
  apply (get_recent_prs_early_exit w_broken_listing 7
           [[pr7; pr5]; [pr3; pr2]] [Raise HTTPError] pr2).
  - reflexivity.
  - repeat constructor; discriminate.
  - cbn. tauto.
  - vm_compute. reflexivity.
Defined.

(** A page that fails while every entry read so far is in the window makes
    the call raise. *)
Theorem get_recent_prs_failure (w : World) (days : Z)
    (pages : list (list pr_json)) (e : exn) (rest : list (result (list pr_json))) :
  api_pulls w = map Ok pages ++ Raise e :: rest ->
  Forall (fun res => res ≠ []) pages ->
  Forall (fun pr => in_window (utcnow_minus_days w days +:+ "Z") pr = true)
         (concat pages) ->
  get_recent_prs w days = Raise e.
Proof.
  intros E Hne Hall. unfold get_recent_prs. rewrite E.
  rewrite get_recent_prs_loop_pages by exact Hne.
  assert (Hb : forallb (in_window (utcnow_minus_days w days +:+ "Z")) (concat pages)
               = true).
  { apply forallb_forall. intros pr Hin.
    rewrite Forall_forall in Hall. apply Hall, list_elem_of_In, Hin. }
  rewrite Hb. reflexivity.
Qed.

Lemma get_recent_prs_failure_witness :
  get_recent_prs w_broken_files 7 = Raise HTTPError.
Proof.
  apply (get_recent_prs_failure w_broken_files 7 [[pr7; pr5]; [pr3]] HTTPError []).
  - reflexivity.
  - repeat constructor; discriminate.
  - repeat constructor.
Defined.

(** ** The candidate loop: what it collects, in which order, how it fails *)

Lemma scored_from_weaken (w : World) (current : pr_record) (pr : pr_json)
    (recent_prs : list pr_json) (x : scored) :
  scored_from w current recent_prs x -> scored_from w current (pr :: recent_prs) x.
Proof.
  intros (pr' & files & Hin & H). exists pr', files. split; [right; exact Hin | exact H].
Qed.

Lemma state_filter (pr : pr_json) :
  negb (String.eqb (pj_state pr) "open" || String.eqb (pj_state pr) "closed") = false ->
  pj_state pr = "open"%string \/ pj_state pr = "closed"%string.
Proof.
  rewrite negb_false_iff, orb_true_iff, !String.eqb_eq. tauto.
Qed.

Lemma collect_candidates_from (w : World) (current : pr_record)
    (recent_prs : list pr_json) (acc candidates : list scored) :
  collect_candidates w current recent_prs acc = Ok candidates ->
  exists new,
    candidates = acc ++ new
    /\ Forall (scored_from w current recent_prs) new
    /\ map (fun x => number (cand_of x)) new `sublist_of` map pj_number recent_prs.
Proof.
  revert acc. induction recent_prs as [|pr rest IH]; intros acc; cbn [collect_candidates].
  - intros [= <-]. exists []. rewrite app_nil_r. repeat split; constructor.
  - assert (Hskip : collect_candidates w current rest acc = Ok candidates ->
      exists new,
        candidates = acc ++ new
        /\ Forall (scored_from w current (pr :: rest)) new
        /\ map (fun x => number (cand_of x)) new
           `sublist_of` map pj_number (pr :: rest)).
    { intros H. destruct (IH _ H) as (new & -> & Hnew & Hsub). exists new.
      split; [reflexivity|]. split.
      - eapply Forall_impl; [exact Hnew|]. intros x. apply scored_from_weaken.
      - cbn [map]. apply sublist_cons_r. left. exact Hsub. }
    destruct (pj_number pr =? number current)%Z; [exact Hskip|].
    destruct (negb _) eqn:Hstate; [exact Hskip|]. apply state_filter in Hstate.
    destruct (get_pr_files w (pj_number pr)) as [files|e] eqn:Hfiles; [|discriminate].
    cbn [mbind result_bind].
    destruct (compute_similarity current (make_record pr files))
      as [[[score file_overlap] text_sim]|e] eqn:Hcs; [|discriminate].
    cbn [mbind result_bind].
    destruct (passes_gate score file_overlap) eqn:Hg; [|exact Hskip].
    intros H. destruct (IH _ H) as (new & -> & Hnew & Hsub).
    exists ((score, file_overlap, text_sim, make_record pr files) :: new).
    split; [rewrite <- app_assoc; reflexivity|]. split.
    + constructor.
      * exists pr, files. split; [left; reflexivity|]. split; [exact Hstate|].
        split; [exact Hfiles|]. split; [reflexivity|]. split; [exact Hcs | exact Hg].
      * eapply Forall_impl; [exact Hnew|]. intros x. apply scored_from_weaken.
    + cbn [map]. apply sublist_skip. exact Hsub.
Qed.

(** Every collected tuple carries the scores [compute_similarity] gives
    for the current record and the candidate's record, which is built from
    a listed pull request that is open or closed and from its complete file
    list, and passes the gate. *)
Theorem collect_candidates_sound (w : World) (current : pr_record)
    (recent_prs : list pr_json) (candidates : list scored) :
  collect_candidates w current recent_prs [] = Ok candidates ->
  Forall (scored_from w current recent_prs) candidates.
Proof.
  intros H. destruct (collect_candidates_from _ _ _ _ _ H) as (new & -> & Hnew & _).
  exact Hnew.
Qed.

Lemma collect_candidates_sound_witness :
  exists x,
    collect_candidates w_duplicate (make_record pr7 ["a.py"; "b.py"]) [pr7; pr5; pr3] []
    = Ok [x]
    /\ scored_from w_duplicate (make_record pr7 ["a.py"; "b.py"]) [pr7; pr5; pr3] x.
Proof.
  eexists. split; [vm_compute; reflexivity|].
  eapply Forall_inv.
  apply (collect_candidates_sound w_duplicate
           (make_record pr7 ["a.py"; "b.py"]) [pr7; pr5; pr3]).
  vm_compute. reflexivity.
Defined.

(** The candidates are collected in listing order: their numbers are the
    numbers of the listing with some left out. *)
Theorem collect_candidates_in_listing_order (w : World) (current : pr_record)
    (recent_prs : list pr_json) (candidates : list scored) :
  collect_candidates w current recent_prs [] = Ok candidates ->
  map (fun x => number (cand_of x)) candidates `sublist_of` map pj_number recent_prs.
Proof.
  intros H. destruct (collect_candidates_from _ _ _ _ _ H) as (new & -> & _ & Hsub).
  exact Hsub.
Qed.

Lemma collect_candidates_in_listing_order_witness :
  [5] `sublist_of` [7; 5; 3].
Proof.
  apply (collect_candidates_in_listing_order w_duplicate
           (make_record pr7 ["a.py"; "b.py"]) [pr7; pr5; pr3]
           [(Float.rnd (21 # 25), 1%Q, Float.rnd (3 # 5),
             make_record pr5 ["a.py"; "b.py"; "c.py"])]).
  vm_compute. reflexivity.
Defined.

(** The loop can only fail with the failure of a file listing it asked
    for. *)
Lemma collect_candidates_raise (w : World) (current : pr_record)
    (recent_prs : list pr_json) (acc : list scored) (e : exn) :
  collect_candidates w current recent_prs acc = Raise e ->
  exists pr, In pr recent_prs
             /\ pj_number pr ≠ number current
             /\ get_pr_files w (pj_number pr) = Raise e.
Proof.
  revert acc. induction recent_prs as [|pr rest IH]; intros acc; cbn [collect_candidates].
  - discriminate.
  - assert (Hskip : collect_candidates w current rest acc = Raise e ->
      exists pr', In pr' (pr :: rest) /\ pj_number pr' ≠ number current
                  /\ get_pr_files w (pj_number pr') = Raise e).
    { intros H. destruct (IH _ H) as (pr' & Hin & H'). exists pr'.
      split; [right; exact Hin | exact H']. }
    assert (Hskip' : forall acc', collect_candidates w current rest acc' = Raise e ->
      exists pr', In pr' (pr :: rest) /\ pj_number pr' ≠ number current
                  /\ get_pr_files w (pj_number pr') = Raise e).
    { intros acc' H. destruct (IH _ H) as (pr' & Hin & H'). exists pr'.
      split; [right; exact Hin | exact H']. }
    destruct (Z.eqb_spec (pj_number pr) (number current)) as [_|Hne]; [exact Hskip|].
    destruct (negb _); [exact Hskip|].
    destruct (get_pr_files w (pj_number pr)) as [files|e'] eqn:Hfiles.
    + cbn [mbind result_bind].
      destruct (compute_similarity_parts current (make_record pr files))
        as (fo & ts & _ & _ & -> & _).
      cbn [mbind result_bind].
      destruct (passes_gate _ fo); apply Hskip'.
    + cbn [mbind result_bind]. intros [= ->]. exists pr.
      split; [left; reflexivity|]. split; [exact Hne | exact Hfiles].
Qed.

(** Scoring never aborts the loop: it returns whenever the file listing of
    every listed pull request can be read, and when it raises, the exception
    is that of the file listing of a listed pull request other than the
    current one. *)
Theorem collect_candidates_failures (w : World) (current : pr_record)
    (recent_prs : list pr_json) :
  (forall e, collect_candidates w current recent_prs [] = Raise e ->
     exists pr, In pr recent_prs
                /\ pj_number pr ≠ number current
                /\ get_pr_files w (pj_number pr) = Raise e)
  /\ ((forall pr, In pr recent_prs ->
         exists files, get_pr_files w (pj_number pr) = Ok files) ->
      exists candidates, collect_candidates w current recent_prs [] = Ok candidates).
Proof.
  split; [intros e; apply collect_candidates_raise|].
  intros Hall.
  destruct (collect_candidates w current recent_prs []) as [candidates|e] eqn:H;
    [eauto|].
  apply collect_candidates_raise in H as (pr & Hin & _ & Hraise).
  destruct (Hall pr Hin) as [files Hok]. congruence.
Qed.

Lemma collect_candidates_failures_witness :
  exists pr, In pr [pr7; pr5]
             /\ pj_number pr ≠ 7
             /\ get_pr_files w_broken_files (pj_number pr) = Raise HTTPError.
Proof.
  apply (proj1 (collect_candidates_failures w_broken_files
                  (make_record pr7 ["a.py"; "b.py"; "a.py"]) [pr7; pr5]) HTTPError).
  vm_compute. reflexivity.
Defined.

(** ** The selection keeps the best candidates *)

(** [select_top] returns three candidates, or all of them when there are
    fewer; together with the ones left out they are the candidates given,
    and no candidate left out has a higher score than one returned. *)
Theorem select_top_best (candidates : list scored) :
  length (select_top candidates) = Nat.min 3 (length candidates)
  /\ select_top candidates ++ drop 3 (sort_desc candidates) ≡ₚ candidates
  /\ forall x y, In x (select_top candidates) ->
                 In y (drop 3 (sort_desc candidates)) ->
                 (score_of y <= score_of x)%Q.
Proof.
  unfold select_top. split; [|split].
  - rewrite length_take, (Permutation_length (sort_desc_perm candidates)). reflexivity.
  - rewrite take_drop. apply sort_desc_perm.
  - intros x y Hx Hy.
    pose proof (sort_desc_sorted candidates) as Hs.
    rewrite <- (take_drop 3 (sort_desc candidates)) in Hs.
    apply (StronglySorted_app_1_elem_of _ _ _ x y Hs); apply list_elem_of_In; assumption.
Qed.

Lemma select_top_best_witness :
  (Float.of_decimal 6 10 <= Float.of_decimal 7 10)%Q.
Proof.
  apply (proj2 (proj2 (select_top_best four_scored))
           (Float.of_decimal 7 10, Float.one, Float.of_decimal 25 100, cand_numbered 33)
           (Float.of_decimal 6 10, Float.one, Float.zero, cand_numbered 32)).
  - vm_compute. right. right. left. reflexivity.
  - vm_compute. left. reflexivity.
Defined.

Example select_top_four :
  map (fun x => number (cand_of x)) (select_top four_scored) = [34; 31; 33].
Proof. vm_compute. reflexivity. Qed.

(** ** What the gate lets through *)

Lemma true_div_zero (b : Z) : b ≠ 0 -> true_div 0 b = Ok Float.zero.
Proof.
  intros Hb. unfold true_div. destruct (Z.eqb_spec b 0) as [E|_]; [contradiction|].
  reflexivity.
Qed.

Lemma file_overlap_disjoint (cur_files cand_files : gset string) :
  cur_files ∩ cand_files = ∅ -> file_overlap_of cur_files cand_files = Ok Float.zero.
Proof.
  intros Hd. unfold file_overlap_of. destruct (nonempty cur_files) eqn:Hne; cbn [negb].
  - rewrite Hd. apply true_div_zero. rewrite len_zero_iff. apply nonempty_true, Hne.
  - reflexivity.
Qed.

Lemma zero_overlap_fails (score : float) : passes_gate score Float.zero = false.
Proof.
  unfold passes_gate.
  replace (Float.geb Float.zero (Float.of_decimal 4 10)) with false
    by (vm_compute; reflexivity).
  apply andb_false_r.
Qed.

(** A candidate that shares no file with the current pull request is never
    reported, however similar its title and body are. *)
Theorem disjoint_files_not_reported (current candidate : pr_record) :
  (list_to_set (files current) : gset string) ∩ list_to_set (files candidate) = ∅ ->
  exists score ts,
    compute_similarity current candidate = Ok (score, Float.zero, ts)
    /\ passes_gate score Float.zero = false.
Proof.
  intros Hd.
  destruct (compute_similarity_parts current candidate)
    as (fo & ts & Hfo & _ & Hcs & _).
  rewrite file_overlap_disjoint in Hfo by exact Hd.
  assert (fo = Float.zero) as -> by congruence.
  eexists _, ts. split; [exact Hcs | apply zero_overlap_fails].
Qed.

Lemma disjoint_files_not_reported_witness :
  exists score ts,
    compute_similarity pr_scenario1_current pr_unrelated_files
    = Ok (score, Float.zero, ts)
    /\ passes_gate score Float.zero = false.
Proof.
  apply (disjoint_files_not_reported pr_scenario1_current pr_unrelated_files).
  vm_compute. reflexivity.
Defined.

Lemma half_le_weight_files : (Float.of_decimal 5 10 <= weight_files)%Q.
Proof. vm_compute. discriminate. Qed.

Lemma full_overlap_score (ts : float) :
  (0 <= ts <= 1)%Q ->
  (weight_files
   <= Float.add (Float.mul weight_files Float.one) (Float.mul weight_text ts))%Q.
Proof.
  intros Hts.
  destruct weight_files_rep as [Hf0 Hf], weight_text_rep as [Ht0 Ht].
  pose proof (FloatFacts.mul_weight _ _ Ht0 Ht Hts) as [Hb0 _].
  assert (Ea : Float.mul weight_files Float.one = weight_files).
  { unfold Float.mul. rewrite <- Hf at 2. apply FloatFacts.rnd_proper.
    unfold Float.one. ring. }
  rewrite Ea. unfold Float.add.
  pose proof (FloatFacts.rnd_mono weight_files
                (weight_files + Float.mul weight_text ts) Hf0) as Hm.
  rewrite Hf in Hm. apply Hm. lra.
Qed.

Lemma full_overlap_passes (ts : float) :
  (0 <= ts <= 1)%Q ->
  passes_gate (Float.add (Float.mul weight_files Float.one) (Float.mul weight_text ts))
              Float.one = true.
Proof.
  intros Hts. unfold passes_gate. apply andb_true_iff. split.
  - apply Qle_bool_iff. eapply Qle_trans; [apply half_le_weight_files|].
    apply full_overlap_score, Hts.
  - vm_compute. reflexivity.
Qed.

(** A candidate that touches every file of the current pull request passes
    the gate whatever its title and body: the file weight alone reaches the
    score threshold. *)
Theorem superset_files_pass_gate (current candidate : pr_record) :
  (list_to_set (files current) : gset string) ≠ ∅ ->
  (list_to_set (files current) : gset string) ⊆ list_to_set (files candidate) ->
  exists score ts,
    compute_similarity current candidate = Ok (score, Float.one, ts)
    /\ passes_gate score Float.one = true.
Proof.
  intros Hne Hsub.
  destruct (compute_similarity_parts current candidate)
    as (fo & ts & Hfo & _ & Hcs & _ & Hts).
  rewrite file_overlap_superset in Hfo by assumption.
  assert (fo = Float.one) as -> by congruence.
  eexists _, ts. split; [exact Hcs | apply full_overlap_passes, Hts].
Qed.

Lemma superset_files_pass_gate_witness :
  exists score ts,
    compute_similarity pr_scenario1_current pr_other_text = Ok (score, Float.one, ts)
    /\ passes_gate score Float.one = true.
Proof.
  apply (superset_files_pass_gate pr_scenario1_current pr_other_text).
  - apply nonempty_true. vm_compute. reflexivity.
  - apply (bool_decide_unpack _). vm_compute. exact I.
Defined.

Lemma full_marks :
  Float.add (Float.mul weight_files Float.one) (Float.mul weight_text Float.one)
  = Float.one.
Proof. vm_compute. reflexivity. Qed.

(** A candidate with the title and body of the current pull request, some
    token in them, and all of its files scores exactly [1.0] on all three
    counts. *)
Theorem same_text_superset_scores_one (current candidate : pr_record) :
  title candidate = title current ->
  body candidate = body current ->
  tokenize (Some (title current +:+ " " +:+ body current)) ≠ ∅ ->
  (list_to_set (files current) : gset string) ≠ ∅ ->
  (list_to_set (files current) : gset string) ⊆ list_to_set (files candidate) ->
  compute_similarity current candidate = Ok (Float.one, Float.one, Float.one).
Proof.
  intros Et Eb Htok Hne Hsub.
  destruct (compute_similarity_parts current candidate)
    as (fo & ts & Hfo & Hts & Hcs & _).
  rewrite file_overlap_superset in Hfo by assumption.
  rewrite Et, Eb, jaccard_self in Hts by exact Htok.
  assert (fo = Float.one) as -> by congruence.
  assert (ts = Float.one) as -> by congruence.
  rewrite Hcs, full_marks. reflexivity.
Qed.

Lemma same_text_superset_scores_one_witness :
  compute_similarity pr_scenario1_current pr_scenario1_candidate
  = Ok (Float.one, Float.one, Float.one).
Proof.
  apply same_text_superset_scores_one; try reflexivity.
  - apply nonempty_true. vm_compute. reflexivity.
  - apply nonempty_true. vm_compute. reflexivity.
  - apply (bool_decide_unpack _). vm_compute. exact I.
Defined.

(** ** The shape of a run *)

Lemma notify_slack_cases (w : World) (message : string) :
  (webhook_set (slack_webhook w) = None
   /\ exists line, notify_slack w message = Run [Print line] (Ok tt))
  \/ exists hook,
       webhook_set (slack_webhook w) = Some hook
       /\ ((exists line,
              notify_slack w message = Run [Post hook message; Print line] (Ok tt))
           \/ exists e, notify_slack w message = Run [Post hook message] (Raise e)).
Proof.
  unfold notify_slack. destruct (webhook_set (slack_webhook w)) as [hook|].
  - right. exists hook. split; [reflexivity|].
    unfold mbind, run_bind. cbn [outcome trace].
    destruct (requests_post w hook message) as [resp|e]; [left | right]; eauto.
  - left. split; [reflexivity|]. eauto.
Qed.

(** [main] raises with the exception of its first failing read, having done
    nothing, or goes on with the candidates collected. *)
Lemma main_cases (w : World) :
  (exists e, main w = Run [] (Raise e))
  \/ exists current_pr current_files recent_prs candidates,
       get_pr w (pr_number w) = Ok current_pr
       /\ get_pr_files w (pr_number w) = Ok current_files
       /\ get_recent_prs w 7 = Ok recent_prs
       /\ collect_candidates w (make_record current_pr current_files) recent_prs []
          = Ok candidates
       /\ main w =
          match candidates with
          | [] => print "No similar PRs found."
          | _ => notify_slack w
                   (join newline
                      (message_lines (make_record current_pr current_files)
                         (select_top candidates)))
          end.
Proof.
  destruct (get_pr w (pr_number w)) as [current_pr|e] eqn:H1.
  2:{ left. exists e. unfold main. rewrite H1. reflexivity. }
  destruct (get_pr_files w (pr_number w)) as [current_files|e] eqn:H2.
  2:{ left. exists e. unfold main. rewrite H1, bind_lift_ok, H2. reflexivity. }
  destruct (get_recent_prs w 7) as [recent_prs|e] eqn:H3.
  2:{ left. exists e. unfold main.
      rewrite H1, bind_lift_ok, H2, bind_lift_ok, H3. reflexivity. }
  destruct (collect_candidates w (make_record current_pr current_files) recent_prs [])
    as [candidates|e] eqn:H4.
  2:{ left. exists e. unfold main.
      rewrite H1, bind_lift_ok, H2, bind_lift_ok, H3, bind_lift_ok, H4. reflexivity. }
  right. exists current_pr, current_files, recent_prs, candidates.
  repeat (split; [first [reflexivity | assumption]|]).
  exact (main_after_reads w _ _ _ _ H1 H2 H3 H4).
Qed.

(** A run that succeeds prints exactly one line, last; a run that fails
    prints none.  At most one request is posted in either. *)
Theorem main_trace_shape (w : World) :
  (outcome (main w) = Ok tt
   /\ exists line,
        trace (main w) = [Print line]
        \/ exists hook message, trace (main w) = [Post hook message; Print line])
  \/ (exists e,
        outcome (main w) = Raise e
        /\ (trace (main w) = []
            \/ exists hook message, trace (main w) = [Post hook message])).
Proof.
  destruct (main_cases w) as [[e ->] | (current_pr & current_files & recent_prs
                                         & candidates & _ & _ & _ & _ & ->)].
  - right. exists e. cbn. auto.
  - destruct candidates as [|x candidates].
    + left. split; [reflexivity|]. eexists. left. reflexivity.
    + set (message := join newline _).
      destruct (notify_slack_cases w message)
        as [[_ [line ->]] | (hook & _ & [[line ->] | [e ->]])].
      * left. split; [reflexivity|]. exists line. left. reflexivity.
      * left. split; [reflexivity|]. exists line. right. eauto.
      * right. exists e. split; [reflexivity|]. right. eauto.
Qed.

(** Whatever is posted goes to the configured endpoint and is the message
    built from the selected candidates: between one and three of them, all
    collected from the listing for the current pull request. *)
Theorem main_posted_message (w : World) (hook message : string) :
  In (Post hook message) (trace (main w)) ->
  webhook_set (slack_webhook w) = Some hook
  /\ exists current_pr current_files recent_prs candidates,
       get_pr w (pr_number w) = Ok current_pr
       /\ get_pr_files w (pr_number w) = Ok current_files
       /\ get_recent_prs w 7 = Ok recent_prs
       /\ collect_candidates w (make_record current_pr current_files) recent_prs []
          = Ok candidates
       /\ message = join newline
                      (message_lines (make_record current_pr current_files)
                         (select_top candidates))
       /\ (1 <= length (select_top candidates) <= 3)%nat.
Proof.
  intros Hpost.
  destruct (main_cases w) as [[e E] | (current_pr & current_files & recent_prs
                                        & candidates & H1 & H2 & H3 & H4 & E)];
    rewrite E in Hpost.
  - destruct Hpost.
  - destruct candidates as [|x candidates].
    + destruct Hpost as [H|[]]. discriminate H.
    + remember (join newline
                  (message_lines (make_record current_pr current_files)
                     (select_top (x :: candidates)))) as msg eqn:Emsg.
      assert (Hposted : webhook_set (slack_webhook w) = Some hook /\ message = msg).
      { destruct (notify_slack_cases w msg)
          as [[_ [line E']] | (hook' & Hhook & [[line E'] | [e E']])];
          rewrite E' in Hpost; cbn [trace In] in Hpost.
        - destruct Hpost as [H|[]]. discriminate H.
        - destruct Hpost as [H|[H|[]]]; [|discriminate H].
          injection H as E1 E2. split; congruence.
        - destruct Hpost as [H|[]]. injection H as E1 E2. split; congruence. }
      destruct Hposted as (Hhook & ->). split; [exact Hhook|].
      exists current_pr, current_files, recent_prs, (x :: candidates).
      repeat (split; [assumption|]).
      unfold select_top.
      rewrite length_take, (Permutation_length (sort_desc_perm (x :: candidates))).
      cbn [length]. lia.
Qed.

Lemma main_posted_message_witness :
  webhook_set (slack_webhook w_duplicate) = Some demo_hook.
Proof.
  eapply (main_posted_message w_duplicate demo_hook).
  vm_compute. left. reflexivity.
Defined.

Lemma get_pr_files_answered (w : World) (pr_num : Z) :
  (exists pages, api_pull_files w pr_num = map Ok pages) ->
  exists files, get_pr_files w pr_num = Ok files.
Proof.
  intros [pages E]. unfold get_pr_files. rewrite E, get_pr_files_loop_concat. eauto.
Qed.

(** When every collaborator answers, the run ends normally: neither the
    scoring, the selection nor the formatting can make it fail. *)
Theorem main_completes (w : World) :
  (exists current_pr, api_pull w (pr_number w) = Ok current_pr) ->
  (forall pr_num, exists pages, api_pull_files w pr_num = map Ok pages) ->
  (exists pages, api_pulls w = map Ok pages) ->
  (forall hook message, exists resp, requests_post w hook message = Ok resp) ->
  outcome (main w) = Ok tt.
Proof.
  intros [current_pr H1] Hfiles [pages Hpulls] Hpost.
  destruct (get_pr_files_answered w (pr_number w) (Hfiles _)) as [current_files H2].
  assert (H3 : exists recent_prs, get_recent_prs w 7 = Ok recent_prs).
  { unfold get_recent_prs. rewrite Hpulls, get_recent_prs_loop_spec. eauto. }
  destruct H3 as [recent_prs H3].
  destruct (collect_candidates w (make_record current_pr current_files) recent_prs [])
    as [candidates|e] eqn:H4.
  - rewrite (main_after_reads w _ _ _ _ H1 H2 H3 H4).
    destruct candidates as [|x candidates]; [reflexivity|].
    set (message := join newline _).
    destruct (notify_slack_cases w message)
      as [[_ [line ->]] | (hook & _ & [[line ->] | [e E]])]; [reflexivity..|].
    exfalso. unfold notify_slack in E.
    destruct (webhook_set (slack_webhook w)) as [hook'|]; [|discriminate E].
    unfold mbind, run_bind in E. cbn [outcome trace] in E.
    destruct (Hpost hook' message) as [resp Hresp]. rewrite Hresp in E. discriminate E.
  - apply collect_candidates_raise in H4 as (pr & _ & _ & Hraise).
    destruct (get_pr_files_answered w (pj_number pr) (Hfiles _)) as [files Hok].
    congruence.
Qed.

Lemma main_completes_witness : outcome (main w_duplicate) = Ok tt.
Proof.
  apply main_completes.
  - exists pr7. reflexivity.
  - intros pr_num. unfold w_duplicate, demo_world, demo_files. cbn [api_pull_files].
    destruct (pr_num =? 7)%Z;
      [exists [[FileJson "a.py"; FileJson "b.py"]]; reflexivity|].
    destruct (pr_num =? 5)%Z;
      [exists [[FileJson "a.py"]; [FileJson "b.py"; FileJson "c.py"]]; reflexivity|].
    exists [[FileJson "README.md"]]. reflexivity.
  - exists [[pr7; pr5]; [pr3; pr2]]. reflexivity.
  - intros hook message. exists (Response 200 "ok"). reflexivity.
Defined.

(** ** Rendering of the scores *)

Lemma pretty_digit (d : Z) :
  0 <= d <= 9 -> pretty d = String (digit_char d) EmptyString.
Proof.
  intros Hd.
  assert (H : d = 0 \/ d = 1 \/ d = 2 \/ d = 3 \/ d = 4 \/ d = 5 \/ d = 6
              \/ d = 7 \/ d = 8 \/ d = 9) by lia.
  repeat (destruct H as [->|H]; [vm_compute; reflexivity|]).
  subst d. vm_compute. reflexivity.
Qed.

(** A score of [0,1] is rendered as a digit, a point and two digits, and
    the number so written is the multiple of 0.01 nearest to the score. *)
Theorem format_2f_unit (x : float) :
  (0 <= x <= 1)%Q ->
  exists a b c : Z,
    0 <= a <= 1 /\ 0 <= b <= 9 /\ 0 <= c <= 9
    /\ Float.format_2f x
       = String (digit_char a)
           (String "."%char (String (digit_char b) (String (digit_char c) EmptyString)))
    /\ (Qabs (inject_Z (100 * a + 10 * b + c) / 100 - x) <= 1 # 200)%Q.
Proof.
  intros [H0 H1]. unfold Float.format_2f.
  set (n := Float.round_half_even (x * 100)).
  assert (Hn0 : 0 <= n) by (apply FloatFacts.rhe_ge; change (inject_Z 0) with 0%Q; lra).
  assert (Hn1 : n <= 100)
    by (apply FloatFacts.rhe_le; change (inject_Z 100) with 100%Q; lra).
  exists (n / 100), (n / 10 mod 10), (n mod 10).
  assert (Ha : 0 <= n / 100 <= 1) by (split; [apply Z.div_pos | apply Z.div_le_upper_bound]; lia).
  assert (Hb : 0 <= n / 10 mod 10 <= 9) by (pose proof (Z.mod_pos_bound (n / 10) 10); lia).
  assert (Hc : 0 <= n mod 10 <= 9) by (pose proof (Z.mod_pos_bound n 10); lia).
  repeat (split; [lia|]). split.
  - rewrite !pretty_digit by lia. reflexivity.
  - assert (En : 100 * (n / 100) + 10 * (n / 10 mod 10) + n mod 10 = n).
    { pose proof (Z.div_mod n 10). pose proof (Z.div_mod (n / 10) 10).
      rewrite Z.div_div in * by lia. change (10 * 10) with 100 in *. lia. }
    rewrite En.
    pose proof (FloatFacts.rhe_error (x * 100)) as He. fold n in He.
    apply Qabs_Qle_condition in He as [He1 He2].
    apply Qabs_Qle_condition. split.
    + apply Qle_minus_iff. apply Qle_minus_iff in He1.
      setoid_replace (inject_Z n / 100 - x + - - (1 # 200))%Q
        with ((inject_Z n - x * 100 + - - (1 # 2)) / 100)%Q
        using relation Qeq by field.
      apply Qle_shift_div_l; [reflexivity | lra].
    + apply Qle_minus_iff. apply Qle_minus_iff in He2.
      setoid_replace ((1 # 200) + - (inject_Z n / 100 - x))%Q
        with (((1 # 2) + - (inject_Z n - x * 100)) / 100)%Q
        using relation Qeq by field.
      apply Qle_shift_div_l; [reflexivity | lra].
Qed.

Lemma format_2f_unit_witness :
  exists a b c : Z,
    Float.format_2f (Float.rnd (21 # 25))
    = String (digit_char a)
        (String "."%char (String (digit_char b) (String (digit_char c) EmptyString)))
    /\ (Qabs (inject_Z (100 * a + 10 * b + c) / 100 - Float.rnd (21 # 25)) <= 1 # 200)%Q.
Proof.
  destruct (format_2f_unit (Float.rnd (21 # 25))) as (a & b & c & _ & _ & _ & H).
  - split; vm_compute; discriminate.
  - exists a, b, c. exact H.
Defined.

(** ** Disjoint tokens, growing file sets *)

Lemma jaccard_disjoint (s1 s2 : gset string) :
  s1 ∩ s2 = ∅ -> jaccard s1 s2 = Ok Float.zero.
Proof.
  intros Hd. unfold jaccard.
  destruct (negb (nonempty s1) && negb (nonempty s2)); [reflexivity|].
  destruct (Z.eqb_spec (len (s1 ∪ s2)) 0) as [_|Hne]; cbn [negb]; [reflexivity|].
  rewrite Hd. apply true_div_zero, Hne.
Qed.

(** Titles and bodies without a common token give the text similarity
    [0.0]. *)
Theorem no_common_token_no_similarity (current candidate : pr_record) :
  tokenize (Some (title current +:+ " " +:+ body current))
  ∩ tokenize (Some (title candidate +:+ " " +:+ body candidate)) = ∅ ->
  exists score fo,
    compute_similarity current candidate = Ok (score, fo, Float.zero).
Proof.
  intros Hd.
  destruct (compute_similarity_parts current candidate)
    as (fo & ts & _ & Hts & Hcs & _).
  rewrite jaccard_disjoint in Hts by exact Hd.
  assert (ts = Float.zero) as -> by congruence. eauto.
Qed.

Lemma no_common_token_no_similarity_witness :
  exists score fo,
    compute_similarity pr_scenario1_current pr_other_text = Ok (score, fo, Float.zero).
Proof.
  apply (no_common_token_no_similarity pr_scenario1_current pr_other_text).
  vm_compute. reflexivity.
Defined.

Lemma inject_Z_nonneg (a : Z) : 0 <= a -> (0 <= inject_Z a)%Q.
Proof. intros H. change 0%Q with (inject_Z 0). rewrite <- Zle_Qle. exact H. Qed.

Lemma true_div_mono (a a' b : Z) :
  0 <= a <= a' -> 0 < b ->
  exists q q', true_div a b = Ok q /\ true_div a' b = Ok q' /\ (q <= q')%Q.
Proof.
  intros Ha Hb. unfold true_div. destruct (Z.eqb_spec b 0) as [->|_]; [lia|].
  eexists _, _. split; [reflexivity|]. split; [reflexivity|].
  assert (0 < inject_Z b)%Q by (rewrite (Zlt_Qlt 0 b) in Hb; exact Hb).
  assert (0 <= inject_Z a)%Q by (apply inject_Z_nonneg; lia).
  assert (inject_Z a <= inject_Z a')%Q by (rewrite <- Zle_Qle; lia).
  apply FloatFacts.rnd_mono.
  - apply Qle_shift_div_l; [assumption | lra].
  - apply Qmult_le_compat_r; [assumption|]. apply Qlt_le_weak, Qinv_lt_0_compat.
    assumption.
Qed.

Lemma file_overlap_mono (cur_files cand_files cand_files' : gset string) :
  cand_files ⊆ cand_files' ->
  exists fo fo',
    file_overlap_of cur_files cand_files = Ok fo
    /\ file_overlap_of cur_files cand_files' = Ok fo'
    /\ (0 <= fo <= fo')%Q.
Proof.
  intros Hsub. unfold file_overlap_of.
  destruct (nonempty cur_files) eqn:Hne; cbn [negb].
  - apply nonempty_true in Hne. rewrite <- len_zero_iff in Hne.
    pose proof (len_nonneg cur_files). pose proof (len_nonneg (cur_files ∩ cand_files)).
    assert (Hle : len (cur_files ∩ cand_files) <= len (cur_files ∩ cand_files')).
    { unfold len. apply inj_le, subseteq_size.
      apply intersection_mono_l. exact Hsub. }
    destruct (true_div_mono (len (cur_files ∩ cand_files))
                (len (cur_files ∩ cand_files')) (len cur_files))
      as (q & q' & E & E' & Hq); [lia..|].
    exists q, q'. split; [exact E|]. split; [exact E'|]. split; [|exact Hq].
    pose proof (len_inter_le cur_files cand_files).
    destruct (true_div_unit (len (cur_files ∩ cand_files)) (len cur_files))
      as [E2 [Hq0 _]]; [lia..|].
    rewrite E in E2. injection E2 as ->. exact Hq0.
  - exists Float.zero, Float.zero. unfold Float.zero. repeat split; lra.
Qed.

Lemma weighted_sum_mono (fo fo' ts : float) :
  (0 <= fo <= fo')%Q -> (0 <= ts)%Q ->
  (Float.add (Float.mul weight_files fo) (Float.mul weight_text ts)
   <= Float.add (Float.mul weight_files fo') (Float.mul weight_text ts))%Q.
Proof.
  intros [H0 Hle] Hts.
  destruct weight_files_rep as [Hf0 _], weight_text_rep as [Ht0 _].
  assert (Ha0 : (0 <= Float.mul weight_files fo)%Q)
    by (apply FloatFacts.rnd_nonneg; nra).
  assert (Ha : (Float.mul weight_files fo <= Float.mul weight_files fo')%Q)
    by (apply FloatFacts.rnd_mono; nra).
  assert (Hb0 : (0 <= Float.mul weight_text ts)%Q)
    by (apply FloatFacts.rnd_nonneg; nra).
  unfold Float.add. apply FloatFacts.rnd_mono; lra.
Qed.

(** Touching more files never lowers a candidate's standing: with the same
    title and body, a candidate whose file set includes another's has at
    least its file overlap and at least its score. *)
Theorem more_files_score_no_less (current candidate candidate' : pr_record) :
  title candidate' = title candidate ->
  body candidate' = body candidate ->
  (list_to_set (files candidate) : gset string) ⊆ list_to_set (files candidate') ->
  exists score fo score' fo' ts,
    compute_similarity current candidate = Ok (score, fo, ts)
    /\ compute_similarity current candidate' = Ok (score', fo', ts)
    /\ (fo <= fo')%Q /\ (score <= score')%Q.
Proof.
  intros Et Eb Hsub.
  destruct (file_overlap_mono (list_to_set (files current)) _ _ Hsub)
    as (fo & fo' & Hfo & Hfo' & Hle).
  destruct (jaccard_unit
              (tokenize (Some (title current +:+ " " +:+ body current)))
              (tokenize (Some (title candidate +:+ " " +:+ body candidate))))
    as (ts & Hts & Hts0 & _).
  exists (Float.add (Float.mul weight_files fo) (Float.mul weight_text ts)), fo,
         (Float.add (Float.mul weight_files fo') (Float.mul weight_text ts)), fo', ts.
  rewrite !compute_similarity_unfold, Et, Eb, Hfo, Hfo', Hts.
  split; [reflexivity|]. split; [reflexivity|].
  split; [apply Hle | apply weighted_sum_mono; assumption].
Qed.

Lemma more_files_score_no_less_witness :
  exists score fo score' fo' ts,
    compute_similarity pr_scenario1_candidate pr_scenario1_current = Ok (score, fo, ts)
    /\ compute_similarity pr_scenario1_candidate pr_scenario1_candidate
       = Ok (score', fo', ts)
    /\ (fo <= fo')%Q /\ (score <= score')%Q.
Proof.
  apply (more_files_score_no_less pr_scenario1_candidate
           pr_scenario1_current pr_scenario1_candidate); try reflexivity.
  apply (bool_decide_unpack _). vm_compute. exact I.
Defined.
